(** * SCDIS dashboard: the resilient API client and the live-scan poll

    A shallow embedding of [frontend/lib/api.ts] ([apiRequest],
    [toSafeNumber], [toDisplayTime], [mapDecisionForUi]) and of the
    [fetchLiveData] callback of [frontend/app/page.tsx], with the properties
    of the specification stated over it.

    - JavaScript numbers are IEEE binary64 values, taken from the standard
      library's [spec_float] (precision 53, [emax] 1024).
    - A promise is modelled by the value it settles to ([Settled]).
    - The module-level [let activeApiBaseUrl] is threaded explicitly.
    - [fetchLiveData] is an async callback with a single [await]; it is split
      at that point into the part run on invocation and the part run when the
      awaited promise settles, and the event loop interleaves these parts. *)

From Stdlib Require Import ZArith Ascii String.
From Stdlib Require Import Floats.SpecFloat Floats.PrimFloat Floats.FloatOps.
From stdpp Require Import base decidable option list gmap strings pretty.

Local Open Scope Z_scope.

(** ** JavaScript numbers *)

Module JsNumber.

Definition prec : Z := 53.
Definition emax : Z := 1024.

Definition number : Type := spec_float.

Definition NaN : number := S754_nan.
Definition zero : number := S754_zero false.

(** The Number value of an integer (exact below 2^53). *)
Definition of_Z (n : Z) : number := binary_normalize prec emax n 0 false.

Definition pow10 (f : nat) : positive := Z.to_pos (10 ^ Z.of_nat f).

(** The Number value of the decimal literal [digits / 10^scale] with an
    optional minus sign, e.g. [decimal false 127 1] for [12.7]: the binary64
    value nearest to it, ties to even. *)
Definition decimal (negative : bool) (digits : N) (scale : nat) : number :=
  match digits with
  | N0 => S754_zero negative
  | Npos p =>
      SFdiv prec emax (S754_finite negative p 0) (S754_finite false (pow10 scale) 0)
  end.

(** [Number.isFinite]. *)
Definition isFinite (x : number) : bool :=
  match x with
  | S754_zero _ | S754_finite _ _ _ => true
  | S754_infinity _ | S754_nan => false
  end.

(** [Math.round]: the integral Number closest to [x], the one closer to
    +Infinity on a tie; an [x] in [-0.5, 0) gives -0.  For a finite
    [x = ±m * 2^e] with [e < 0] this is [floor (x + 1/2)], computed
    exactly on integers. *)
Definition Math_round (x : number) : number :=
  match x with
  | S754_finite s m e =>
      if 0 <=? e then x
      else
        let d := 2 ^ (- e) in
        let v := if s then Z.neg m else Z.pos m in
        let n := (2 * v + d) / (2 * d) in
        if n =? 0 then S754_zero s else of_Z n
  | _ => x
  end.

(** [Math.max] of two arguments: NaN if either is NaN, and +0 counts as
    larger than -0. *)
Definition Math_max (x y : number) : number :=
  match SFcompare x y with
  | None => NaN
  | Some Lt => y
  | Some Gt => x
  | Some Eq => match x with S754_zero true => y | _ => x end
  end.

(** The text produced by a number-to-string conversion, kept symbolic:
    either fixed-point notation, i.e. an optional minus sign and the
    decimal digits of [n] with a point before the last [f] of them
    (left-padded with zeros to [f + 1] digits), or the text of
    [Number::toString x]. *)
Inductive NumericText : Type :=
| FixedNotation (negative : bool) (n : N) (f : nat)
| ToStringOf (x : number).

(** [Number.prototype.toFixed(f)] for [0 <= f <= 100].  A non-finite
    number or one whose magnitude is at least 10^21 is printed as by
    [toString]; otherwise [n] is the integer for which [n / 10^f - |x|] is
    closest to zero, the larger one on a tie, and the sign is printed only
    when [x < 0] (so not for -0). *)
Definition toFixed (x : number) (f : nat) : NumericText :=
  match x with
  | S754_zero _ => FixedNotation false 0 f
  | S754_finite s m e =>
      let scaled := Z.pos m * Z.pos (pow10 f) in
      if 0 <=? e then
        if 10 ^ 21 <=? Z.pos m * 2 ^ e then ToStringOf x
        else FixedNotation s (Z.to_N (scaled * 2 ^ e)) f
      else
        let d := 2 ^ (- e) in
        if 10 ^ 21 * d <=? Z.pos m then ToStringOf x
        else FixedNotation s (Z.to_N ((2 * scaled + d) / (2 * d))) f
  | _ => ToStringOf x
  end.

(** [Number(text)] on such a text.  [toString] prints -0 as "0" and
    round-trips every other number. *)
Definition Number_of_text (t : NumericText) : number :=
  match t with
  | FixedNotation negative n f => decimal negative n f
  | ToStringOf (S754_zero _) => zero
  | ToStringOf x => x
  end.

(** [x] is a binary64 value: its mantissa and exponent are in range and
    in canonical form. *)
Definition is_binary64 (x : number) : Prop := valid_binary prec emax x = true.

(** [x] is an integer, and which one. *)
Definition integer_value (x : number) : option Z :=
  match x with
  | S754_zero _ => Some 0
  | S754_finite s m e =>
      let v := if s then Z.neg m else Z.pos m in
      if 0 <=? e then Some (v * 2 ^ e)
      else if v mod 2 ^ (- e) =? 0 then Some (v / 2 ^ (- e)) else None
  | _ => None
  end.

(** The sign bit, which tells -0 from +0. *)
Definition sign_bit (x : number) : bool :=
  match x with
  | S754_zero s | S754_infinity s | S754_finite s _ _ => s
  | S754_nan => false
  end.

End JsNumber.

(** ** Promises and thrown values *)

Module Js.

(** An [Error] object, identified by its [message]. *)
Record Error : Type := { message : string }.

(** What a [throw] or a rejected promise carries: an [Error], or any
    other value (for which [instanceof Error] is false). *)
Inductive Thrown : Type :=
| ThrownError (e : Error)
| ThrownOther.

(** The settled state of a promise. *)
Inductive Settled (A : Type) : Type :=
| Fulfilled (value : A)
| Rejected (reason : Thrown).
Arguments Fulfilled {A} value.
Arguments Rejected {A} reason.

(** The values [Number] is applied to: the primitives, and an object,
    which [Number] first converts to its string form. *)
Inductive Value : Type :=
| Undefined
| Null
| Boolean (b : bool)
| Num (x : JsNumber.number)
| Str (s : string)
| Object (toString : string).

(** An optional property: absent reads as [undefined]. *)
Definition of_optional (x : option JsNumber.number) : Value :=
  match x with
  | Some n => Num n
  | None => Undefined
  end.

End Js.

(** ** [frontend/lib/api.ts] *)

Module Api.
Import JsNumber Js.

(** *** The HTTP interface *)

(** [HeadersInit] as a list of name/value pairs. *)
Definition Headers : Type := list (string * string).

Record RequestInit : Type := {
  method : option string;
  body : option string;
  headers : option Headers;
}.

Definition ascii_lower (c : ascii) : ascii :=
  let n := N_of_ascii c in
  if ((65 <=? n) && (n <=? 90))%N then ascii_of_N (n + 32) else c.

Fixpoint lower (s : string) : string :=
  match s with
  | EmptyString => EmptyString
  | String c s' => String (ascii_lower c) (lower s')
  end.

(** [Headers.has]: header names compare case-insensitively. *)
Definition Headers_has (h : Headers) (name : string) : bool :=
  existsb (fun kv => bool_decide (lower (fst kv) = lower name)) h.

(** [Headers.set]: the first pair with that name takes the value and any
    further ones are dropped; a name that is not present is appended. *)
Fixpoint Headers_set (h : Headers) (name value : string) : Headers :=
  match h with
  | [] => [(name, value)]
  | kv :: rest =>
      if bool_decide (lower (fst kv) = lower name)
      then (fst kv, value)
             :: filter (fun kv' => lower (fst kv') ≠ lower name) rest
      else kv :: Headers_set rest name value
  end.

(** The [requestInit] that [apiRequest] passes to [fetch]: the caller's
    [init] with a JSON [Content-Type] header unless it has one. *)
Definition with_content_type (init : option RequestInit) : RequestInit :=
  let headers := default [] (init ≫= headers) in
  let headers :=
    if negb (Headers_has headers "Content-Type")
    then Headers_set headers "Content-Type" "application/json"
    else headers in
  {| method := init ≫= method; body := init ≫= body; headers := Some headers |}.

(** A [Response]: its status, and what [text()] and [json()] settle to. *)
Record Response (T : Type) : Type := {
  status : N;
  text : Settled string;
  json : Settled T;
}.
Arguments status {T} r.
Arguments text {T} r.
Arguments json {T} r.

(** [response.ok]: the status is in the range 200-299. *)
Definition ok {T} (response : Response T) : bool :=
  ((200 <=? status response) && (status response <=? 299))%N.

(** *** Module-level constants *)

Section Config.
(** [process.env.NEXT_PUBLIC_API_BASE_URL] *)
Variable NEXT_PUBLIC_API_BASE_URL : option string.

Definition PRIMARY_API_BASE_URL : string :=
  default "http://localhost:8000" NEXT_PUBLIC_API_BASE_URL.

(** [Array.from(new Set(items))]: the items in insertion order, each
    kept at its first occurrence. *)
Fixpoint Array_from_Set (seen : gset string) (items : list string) : list string :=
  match items with
  | [] => []
  | x :: rest =>
      if decide (x ∈ seen) then Array_from_Set seen rest
      else x :: Array_from_Set ({[x]} ∪ seen) rest
  end.

Definition API_FALLBACK_CANDIDATES : list string :=
  Array_from_Set ∅
    [PRIMARY_API_BASE_URL; "http://localhost:8010"; "http://127.0.0.1:8010"].
End Config.

(** *** [apiRequest] *)

(** What a call leaves behind: the settled promise, the new value of the
    module variable [activeApiBaseUrl], and (as a history variable) the
    base URLs on which [fetch] was called, in call order. *)
Record Run (T : Type) : Type := {
  outcome : Settled T;
  activeApiBaseUrl : string;
  attempted : list string;
}.
Arguments outcome {T} r.
Arguments activeApiBaseUrl {T} r.
Arguments attempted {T} r.

Definition record_attempt {T} (baseUrl : string) (r : Run T) : Run T :=
  {| outcome := outcome r;
     activeApiBaseUrl := activeApiBaseUrl r;
     attempted := baseUrl :: attempted r |}.

(** How the [try] block of one loop iteration completes. *)
Inductive Completion (T : Type) : Type :=
| Continue (lastError : Error)
| Return (response : Response T)
| Throw (reason : Thrown).
Arguments Continue {T} lastError.
Arguments Return {T} response.
Arguments Throw {T} reason.

(** [error instanceof Error ? error : new Error("request failed")] *)
Definition as_Error (error : Thrown) : Error :=
  match error with
  | ThrownError e => e
  | ThrownOther => {| message := "request failed" |}
  end.

Section Client.
Variable NEXT_PUBLIC_API_BASE_URL : option string.
Variable T : Type.
(** The network: what [fetch(url, init)] settles to.  Within one call
    every URL is requested at most once. *)
Variable fetch : string -> RequestInit -> Settled (Response T).

Section Request.
Variable path : string.
Variable requestInit : RequestInit.

(** The body of the [try] block for one candidate. *)
Definition try_block (baseUrl : string) : Completion T :=
  match fetch (baseUrl +:+ path) requestInit with
  | Rejected reason => Throw reason
  | Fulfilled response =>
      if negb (ok response) then
        match text response with
        | Rejected reason => Throw reason
        | Fulfilled message =>
            let responseError :=
              {| Js.message :=
                   "API " +:+ pretty (status response) +:+ ": " +:+
                   (if bool_decide (message = "") then "request failed" else message) |} in
            if (status response =? 404)%N then Continue responseError
            else Throw (ThrownError responseError)
        end
      else Return response
  end.

(** The [for] loop over [candidateBases], followed by the final
    [throw].  A [Throw] from the [try] block is caught by its own
    [catch] clause, which records the error; the loop then goes on. *)
Fixpoint sweep (candidateBases : list string) (triedBases : gset string)
         (lastError : option Error) (active : string) : Run T :=
  match candidateBases with
  | [] =>
      {| outcome :=
           Rejected (ThrownError (default {| message := "request failed" |} lastError));
         activeApiBaseUrl := active;
         attempted := [] |}
  | baseUrl :: rest =>
      if decide (baseUrl ∈ triedBases) then sweep rest triedBases lastError active
      else
        let triedBases := {[baseUrl]} ∪ triedBases in
        record_attempt baseUrl
          match try_block baseUrl with
          | Continue responseError => sweep rest triedBases (Some responseError) active
          | Return response =>
              {| outcome := json response;
                 activeApiBaseUrl := baseUrl;
                 attempted := [] |}
          | Throw error => sweep rest triedBases (Some (as_Error error)) active
          end
  end.
End Request.

Definition candidateBases (active : string) : list string :=
  active :: filter (fun base => base ≠ active)
                   (API_FALLBACK_CANDIDATES NEXT_PUBLIC_API_BASE_URL).

Definition apiRequest (path : string) (init : option RequestInit)
           (active : string) : Run T :=
  sweep path (with_content_type init) (candidateBases active) ∅ None active.
End Client.

(** *** Response normalization *)

Module OptimizedDecision.
Record t : Type := {
  recommended_reduction : option number;
  cost_saving_estimate : option number;
  stability_score : option number;
}.
(** The empty object [{}]. *)
Definition empty : t :=
  {| recommended_reduction := None;
     cost_saving_estimate := None;
     stability_score := None |}.
End OptimizedDecision.

Module BackendDecisionPayload.
Record t : Type := {
  timestamp : option string;
  rl_action : option string;
  optimized_decision : option OptimizedDecision.t;
}.
(** The empty object [{}]. *)
Definition empty : t :=
  {| timestamp := None; rl_action := None; optimized_decision := None |}.
End BackendDecisionPayload.

Module GenerateDecisionResponse.
Record t : Type := {
  status : option string;
  decision : option BackendDecisionPayload.t;
}.
End GenerateDecisionResponse.

Module UiDecision.
Record t : Type := {
  rlAction : string;
  reduction : number;
  costSaved : number;
  stabilityScore : number;
  timestamp : string;
}.
End UiDecision.

Section Normalization.
(** The runtime's conversion of a string to a Number. *)
Variable StringToNumber : string -> number.
(** [new Date(s).getTime()]: the time value in milliseconds, or [None]
    when it is NaN (the string does not parse as a date). *)
Variable Date_parse : string -> option Z.
(** [date.toLocaleTimeString("en-IN", { hour12: false })] of the date
    with the given time value, in the time zone of the runtime. *)
Variable toLocaleTimeString : Z -> string.

(** [Number(value)] *)
Definition Number (value : Value) : number :=
  match value with
  | Undefined => NaN
  | Null => zero
  | Boolean b => if b then of_Z 1 else zero
  | Num x => x
  | Str s => StringToNumber s
  | Object toString => StringToNumber toString
  end.

Definition toSafeNumber (value : Value) (fallback : number) : number :=
  let parsed := Number value in
  if isFinite parsed then parsed else fallback.

(** [now] is the time value read by [new Date()]. *)
Definition toDisplayTime (timestamp : option string) (now : Z) : string :=
  match timestamp with
  | None => toLocaleTimeString now
  | Some ts =>
      if bool_decide (ts = "") then toLocaleTimeString now
      else
        match Date_parse ts with
        | None => toLocaleTimeString now
        | Some parsedDate => toLocaleTimeString parsedDate
        end
  end.

Definition mapDecisionForUi (response : GenerateDecisionResponse.t) (now : Z)
  : UiDecision.t :=
  let decision :=
    default BackendDecisionPayload.empty (GenerateDecisionResponse.decision response) in
  let optimizedDecision :=
    default OptimizedDecision.empty (BackendDecisionPayload.optimized_decision decision) in
  {| UiDecision.rlAction :=
       default "unknown_action" (BackendDecisionPayload.rl_action decision);
     UiDecision.reduction :=
       Math_max zero
         (Math_round
            (toSafeNumber
               (of_optional (OptimizedDecision.recommended_reduction optimizedDecision))
               zero));
     UiDecision.costSaved :=
       Number_of_text
         (toFixed
            (toSafeNumber
               (of_optional (OptimizedDecision.cost_saving_estimate optimizedDecision))
               zero) 2);
     UiDecision.stabilityScore :=
       Number_of_text
         (toFixed
            (toSafeNumber
               (of_optional (OptimizedDecision.stability_score optimizedDecision))
               zero) 2);
     UiDecision.timestamp :=
       toDisplayTime (BackendDecisionPayload.timestamp decision) now |}.
End Normalization.

End Api.

(** ** [frontend/app/page.tsx]: the live-scan poll of [DashboardOverview] *)

Module Page.
Import JsNumber Js.

Inductive RuntimeMode : Type := LIVE_EDGE | SIMULATION | HYBRID.
Inductive SimulationScenario : Type := normal | peak_load | low_load | grid_failure.

(** The properties of [LiveDashboardResponse] that [fetchLiveData] reads.
    [mode] is tested for truthiness before use, so it may be missing. *)
Record LiveDashboardResponse : Type := {
  status : string;
  mode : option RuntimeMode;
  scenario : option SimulationScenario;
  timestamp : string;
  decision : Api.BackendDecisionPayload.t;
}.

(** The argument [options?: { force?: boolean }]. *)
Record Options : Type := { force : option bool }.

(** An invocation of [fetchLiveData] suspended at
    [await getLiveLaptopDashboard()]. *)
Record Invocation : Type := {
  call : nat;
  forced : bool;
}.

(** The component state that [fetchLiveData] reads and writes: the
    [useState] cells, the [requestLock] ref, and, as history variables,
    the suspended invocations and the number of
    [getLiveLaptopDashboard] calls issued so far. *)
Record State : Type := {
  liveData : option LiveDashboardResponse;
  uiDecision : option Api.UiDecision.t;
  decisionError : option string;
  isScanning : bool;
  runtimeMode : RuntimeMode;
  scenarioState : SimulationScenario;
  requestLock : bool;
  inFlight : list Invocation;
  issued : nat;
}.

Definition initial : State :=
  {| liveData := None;
     uiDecision := None;
     decisionError := None;
     isScanning := false;
     runtimeMode := LIVE_EDGE;
     scenarioState := normal;
     requestLock := false;
     inFlight := [];
     issued := 0%nat |}.

(** [options?.force], as a condition. *)
Definition is_forced (options : option Options) : bool :=
  match options with
  | Some o => default false (force o)
  | None => false
  end.

(** The part of [fetchLiveData] that runs when it is invoked: the lock
    test, then the lock and the indicator are set and
    [getLiveLaptopDashboard()] is called, whose promise is awaited.  The
    new invocation is numbered by the count of calls issued before it. *)
Definition fetchLiveData_invoke (options : option Options) (s : State) : State :=
  if requestLock s && negb (is_forced options) then s
  else
    {| liveData := liveData s;
       uiDecision := uiDecision s;
       decisionError := decisionError s;
       isScanning := true;
       runtimeMode := runtimeMode s;
       scenarioState := scenarioState s;
       requestLock := true;
       inFlight := inFlight s ++ [{| call := issued s; forced := is_forced options |}];
       issued := S (issued s) |}.

Section Resume.
Variable StringToNumber : string -> number.
Variable Date_parse : string -> option Z.
Variable toLocaleTimeString : Z -> string.

(** The [try] and [catch] blocks, run when the awaited promise
    settles. *)
Definition fetchLiveData_try_catch (result : Settled LiveDashboardResponse)
           (now : Z) (s : State) : State :=
  match result with
  | Fulfilled payload =>
      {| liveData := Some payload;
         uiDecision :=
           Some (Api.mapDecisionForUi StringToNumber Date_parse toLocaleTimeString
                   {| Api.GenerateDecisionResponse.status := None;
                      Api.GenerateDecisionResponse.decision := Some (decision payload) |}
                   now);
         decisionError := None;
         isScanning := isScanning s;
         runtimeMode := default (runtimeMode s) (mode payload);
         scenarioState := default (scenarioState s) (scenario payload);
         requestLock := requestLock s;
         inFlight := inFlight s;
         issued := issued s |}
  | Rejected error =>
      {| liveData := liveData s;
         uiDecision := uiDecision s;
         decisionError :=
           Some match error with
                | ThrownError e => message e
                | ThrownOther => "Live scan request failed"
                end;
         isScanning := isScanning s;
         runtimeMode := runtimeMode s;
         scenarioState := scenarioState s;
         requestLock := requestLock s;
         inFlight := inFlight s;
         issued := issued s |}
  end.

(** The [finally] block; the invocation [id] is then complete. *)
Definition fetchLiveData_finally (id : nat) (s : State) : State :=
  {| liveData := liveData s;
     uiDecision := uiDecision s;
     decisionError := decisionError s;
     isScanning := false;
     runtimeMode := runtimeMode s;
     scenarioState := scenarioState s;
     requestLock := false;
     inFlight := filter (fun i => call i ≠ id) (inFlight s);
     issued := issued s |}.

(** The rest of invocation [id], run when its awaited promise settles.
    Nothing happens for an [id] that is not suspended. *)
Definition fetchLiveData_settle (id : nat) (result : Settled LiveDashboardResponse)
           (now : Z) (s : State) : State :=
  if bool_decide (id ∈ call <$> inFlight s)
  then fetchLiveData_finally id (fetchLiveData_try_catch result now s)
  else s.

(** What the event loop can run next: a call of [fetchLiveData] (from
    the interval timer or after a control action), or the continuation
    of a suspended invocation. *)
Inductive Event : Type :=
| Invoke (options : option Options)
| Settle (id : nat) (result : Settled LiveDashboardResponse) (now : Z).

Definition step (s : State) (e : Event) : State :=
  match e with
  | Invoke options => fetchLiveData_invoke options s
  | Settle id result now => fetchLiveData_settle id result now s
  end.

Definition run (events : list Event) (s : State) : State :=
  fold_left step events s.
End Resume.

End Page.

(** ** Vocabulary for the statements about [apiRequest] *)

Module ApiVocabulary.
Import Js Api.

Section Candidates.
Context {T : Type} (fetch : string -> RequestInit -> Settled (Response T))
        (path : string) (requestInit : RequestInit).

(** A candidate succeeds when [fetch] gives a response with [ok]. *)
Definition succeeds (baseUrl : string) : bool :=
  match fetch (baseUrl +:+ path) requestInit with
  | Fulfilled response => ok response
  | Rejected _ => false
  end.

(** A candidate answers 404. *)
Definition returns_404 (baseUrl : string) : bool :=
  match fetch (baseUrl +:+ path) requestInit with
  | Fulfilled response => (status response =? 404)%N
  | Rejected _ => false
  end.


(** The transport fails: [fetch] rejects. *)
Definition transport_error (baseUrl : string) : bool :=
  match fetch (baseUrl +:+ path) requestInit with
  | Fulfilled _ => false
  | Rejected _ => true
  end.

(** The error that an iteration on this candidate stores in
    [lastError], if any. *)
Definition recorded_error (baseUrl : string) : option Error :=
  match Api.try_block T fetch path requestInit baseUrl with
  | Continue responseError => Some responseError
  | Throw error => Some (as_Error error)
  | Return _ => None
  end.

End Candidates.

End ApiVocabulary.

(** ** Vocabulary for the statements about [mapDecisionForUi] *)

Module DecisionVocabulary.
Import Js Api.

(** The [optimized_decision] object of a response, if it is there. *)
Definition optimized_decision_of (response : GenerateDecisionResponse.t)
  : option OptimizedDecision.t :=
  GenerateDecisionResponse.decision response ≫= BackendDecisionPayload.optimized_decision.

(** The [recommended_reduction] of a response, if it is there. *)
Definition recommended_reduction_of (response : GenerateDecisionResponse.t)
  : option JsNumber.number :=
  optimized_decision_of response ≫= OptimizedDecision.recommended_reduction.

End DecisionVocabulary.

(** ** Example networks and payloads *)

Module Examples.
Import Js Api.

(** The primary host answers 500 and the first fallback answers 200 with
    the JSON body [7]. *)
Definition net_500_then_200 (url : string) (_ : RequestInit) : Settled (Response nat) :=
  if bool_decide (url = "http://localhost:8000/autonomous-ai/status") then
    Fulfilled {| status := 500; text := Fulfilled "Internal Server Error";
                 json := Rejected (ThrownError {| message := "Unexpected token" |}) |}
  else if bool_decide (url = "http://localhost:8010/autonomous-ai/status") then
    Fulfilled {| status := 200; text := Fulfilled "7"; json := Fulfilled 7%nat |}
  else Rejected (ThrownError {| message := "Failed to fetch" |}).


(** The primary host answers 404, the first fallback is unreachable and
    the second fallback answers 200 with the JSON body [7]. *)
Definition net_404_down_200 (url : string) (_ : RequestInit) : Settled (Response nat) :=
  if bool_decide (url = "http://localhost:8000/autonomous-ai/status") then
    Fulfilled {| status := 404; text := Fulfilled "";
                 json := Rejected (ThrownError {| message := "Unexpected token" |}) |}
  else if bool_decide (url = "http://127.0.0.1:8010/autonomous-ai/status") then
    Fulfilled {| status := 200; text := Fulfilled "7"; json := Fulfilled 7%nat |}
  else Rejected (ThrownError {| message := "Failed to fetch" |}).

(** Every host answers 404 with an empty body, except the second
    fallback, which is unreachable. *)
Definition net_all_fail (url : string) (_ : RequestInit) : Settled (Response nat) :=
  if bool_decide (url = "http://127.0.0.1:8010/autonomous-ai/status") then
    Rejected (ThrownError {| message := "Failed to fetch" |})
  else
    Fulfilled {| status := 404; text := Fulfilled "";
                 json := Rejected (ThrownError {| message := "Unexpected token" |}) |}.

(** The decision payload of the specification's example: the numbers are
    the values of the literals 12.7, 3.456 and 0.914. *)
Definition reduce_load_response : GenerateDecisionResponse.t :=
  {| GenerateDecisionResponse.status := None;
     GenerateDecisionResponse.decision :=
       Some {| BackendDecisionPayload.timestamp := Some "2024-01-01T10:00:00Z";
               BackendDecisionPayload.rl_action := Some "reduce_load";
               BackendDecisionPayload.optimized_decision :=
                 Some {| OptimizedDecision.recommended_reduction :=
                           Some (JsNumber.decimal false 127 1);
                         OptimizedDecision.cost_saving_estimate :=
                           Some (JsNumber.decimal false 3456 3);
                         OptimizedDecision.stability_score :=
                           Some (JsNumber.decimal false 914 3) |} |} |}.

(** A payload whose [recommended_reduction] is -5.2. *)
Definition negative_reduction_response : GenerateDecisionResponse.t :=
  {| GenerateDecisionResponse.status := Some "ok";
     GenerateDecisionResponse.decision :=
       Some {| BackendDecisionPayload.timestamp := None;
               BackendDecisionPayload.rl_action := Some "reduce_load";
               BackendDecisionPayload.optimized_decision :=
                 Some {| OptimizedDecision.recommended_reduction :=
                           Some (JsNumber.decimal true 52 1);
                         OptimizedDecision.cost_saving_estimate := None;
                         OptimizedDecision.stability_score := None |} |} |}.

(** A payload without [optimized_decision]. *)
Definition bare_decision_response : GenerateDecisionResponse.t :=
  {| GenerateDecisionResponse.status := Some "ok";
     GenerateDecisionResponse.decision :=
       Some {| BackendDecisionPayload.timestamp := None;
               BackendDecisionPayload.rl_action := Some "hold";
               BackendDecisionPayload.optimized_decision := None |} |}.

(** A runtime in the Asia/Kolkata time zone, as far as these examples go:
    the one timestamp used parses, and time values are shown by the
    time of day in that zone. *)
Definition example_StringToNumber (_ : string) : JsNumber.number := JsNumber.NaN.

Definition example_Date_parse (s : string) : option Z :=
  if bool_decide (s = "2024-01-01T10:00:00Z") then Some 1704103200000 else None.

Definition two_digits (n : Z) : string :=
  if n <? 10 then "0" +:+ pretty n else pretty n.

Definition example_toLocaleTimeString (t : Z) : string :=
  let seconds := (t / 1000 + 19800) mod 86400 in
  two_digits (seconds / 3600) +:+ ":" +:+ two_digits (seconds mod 3600 / 60)
    +:+ ":" +:+ two_digits (seconds mod 60).

(** A dashboard payload carrying the example decision. *)
Definition example_dashboard : Page.LiveDashboardResponse :=
  {| Page.status := "ok";
     Page.mode := Some Page.SIMULATION;
     Page.scenario := Some Page.peak_load;
     Page.timestamp := "2024-01-01T10:00:00Z";
     Page.decision :=
       {| BackendDecisionPayload.timestamp := Some "2024-01-01T10:00:00Z";
          BackendDecisionPayload.rl_action := Some "reduce_load";
          BackendDecisionPayload.optimized_decision := None |} |}.

End Examples.

(** ** [frontend/lib/api.ts]: the endpoint functions *)

Module ApiEndpoints.
Import JsNumber Js Api.

(** [Math.min] of two arguments: NaN if either is NaN, and -0 counts as
    smaller than +0. *)
Definition Math_min (x y : number) : number :=
  match SFcompare x y with
  | None => NaN
  | Some Lt => x
  | Some Gt => y
  | Some Eq => match x with S754_zero false => y | _ => x end
  end.

(** *** [URLSearchParams] and [encodeURIComponent]

    Strings are taken as UTF-8 byte sequences, which is what both encoders
    work on. *)

Definition hex_digit (n : N) : ascii :=
  ascii_of_N (if (n <? 10)%N then 48 + n else 55 + n).

(** [%XX], with upper-case hexadecimal digits. *)
Definition percent_encode (c : ascii) : string :=
  let n := N_of_ascii c in
  String "%" (String (hex_digit (n / 16)) (String (hex_digit (n mod 16)) EmptyString)).

Definition is_alphanumeric (c : ascii) : bool :=
  let n := N_of_ascii c in
  (((48 <=? n) && (n <=? 57)) || ((65 <=? n) && (n <=? 90)) || ((97 <=? n) && (n <=? 122)))%N.

Fixpoint encode_with (keep : ascii -> bool) (space_as_plus : bool) (s : string) : string :=
  match s with
  | EmptyString => EmptyString
  | String c rest =>
      (if keep c then String c EmptyString
       else if space_as_plus && bool_decide (c = " "%char) then "+"
       else percent_encode c) +:+ encode_with keep space_as_plus rest
  end.

(** The [application/x-www-form-urlencoded] byte serializer: alphanumerics
    and [*-._] are kept, a space becomes [+], the rest is percent-encoded. *)
Definition urlencoded (s : string) : string :=
  encode_with
    (fun c => is_alphanumeric c || bool_decide (c ∈ ["*"; "-"; "."; "_"]%char))
    true s.

(** [encodeURIComponent]: alphanumerics and [-_.!~*'()] are kept, the rest
    is percent-encoded. *)
Definition encodeURIComponent (s : string) : string :=
  encode_with
    (fun c => is_alphanumeric c
              || bool_decide (c ∈ ["-"; "_"; "."; "!"; "~"; "*"; "'"; "("; ")"]%char))
    false s.

(** [new URLSearchParams(record).toString()] *)
Fixpoint URLSearchParams_toString (params : list (string * string)) : string :=
  match params with
  | [] => ""
  | [(name, value)] => urlencoded name +:+ "=" +:+ urlencoded value
  | (name, value) :: rest =>
      urlencoded name +:+ "=" +:+ urlencoded value +:+ "&" +:+ URLSearchParams_toString rest
  end.

Inductive AiModelLogSource : Type := application | errors.

Definition AiModelLogSource_string (source : AiModelLogSource) : string :=
  match source with
  | application => "application"
  | errors => "errors"
  end.

Inductive ExportModelTarget : Type := forecast | anomaly.

Definition ExportModelTarget_string (model : ExportModelTarget) : string :=
  match model with
  | forecast => "forecast"
  | anomaly => "anomaly"
  end.

(** *** [getAiModelLogs] *)

(** [Math.max(20, Math.min(lines, 1000))] *)
Definition clamp_lines (lines : number) : number :=
  Math_max (of_Z 20) (Math_min lines (of_Z 1000)).

Section Logs.
(** [String(x)] for a Number, as the runtime prints it. *)
Variable Number_toString : number -> string.

(** The path that [getAiModelLogs] requests; an argument left out takes
    its default. *)
Definition getAiModelLogs_path (source : option AiModelLogSource)
           (lines : option number) : string :=
  let source := default application source in
  let lines := default (of_Z 150) lines in
  let params :=
    [("source", AiModelLogSource_string source);
     ("lines", Number_toString (clamp_lines lines))] in
  "/monitoring/ai-models/logs?" +:+ URLSearchParams_toString params.

Definition getAiModelLogs (NEXT_PUBLIC_API_BASE_URL : option string) (T : Type)
           (fetch : string -> RequestInit -> Settled (Response T))
           (source : option AiModelLogSource) (lines : option number)
           (active : string) : Run T :=
  apiRequest NEXT_PUBLIC_API_BASE_URL T fetch (getAiModelLogs_path source lines) None active.
End Logs.

(** *** [exportAiModelWeights] *)

(** A [Response] read with [blob()]. *)
Record BlobResponse (B : Type) : Type := {
  blob_status : N;
  blob_text : Settled string;
  blob : Settled B;
}.
Arguments blob_status {B} _.
Arguments blob_text {B} _.
Arguments blob {B} _.

Definition blob_ok {B} (response : BlobResponse B) : bool :=
  ((200 <=? blob_status response) && (blob_status response <=? 299))%N.

(** How the [try] block of one iteration of [exportAiModelWeights]
    completes. *)
Inductive ExportCompletion (B : Type) : Type :=
| ExportContinue (lastError : Error)
| ExportReturn (response : BlobResponse B)
| ExportThrow (reason : Thrown).
Arguments ExportContinue {B} lastError.
Arguments ExportReturn {B} response.
Arguments ExportThrow {B} reason.

Section ExportWeights.
Variable NEXT_PUBLIC_API_BASE_URL : option string.
Variable B : Type.
(** The network, for a [fetch(url)] without options. *)
Variable fetch : string -> Settled (BlobResponse B).

Section ExportRequest.
Variable path : string.

Definition export_try_block (baseUrl : string) : ExportCompletion B :=
  match fetch (baseUrl +:+ path) with
  | Rejected reason => ExportThrow reason
  | Fulfilled response =>
      if negb (blob_ok response) then
        match blob_text response with
        | Rejected reason => ExportThrow reason
        | Fulfilled message =>
            let responseError :=
              {| Js.message :=
                   "API " +:+ pretty (blob_status response) +:+ ": " +:+
                   (if bool_decide (message = "") then "request failed" else message) |} in
            if (blob_status response =? 404)%N then ExportContinue responseError
            else ExportThrow (ThrownError responseError)
        end
      else ExportReturn response
  end.

Fixpoint export_sweep (candidateBases : list string) (triedBases : gset string)
         (lastError : option Error) (active : string) : Run B :=
  match candidateBases with
  | [] =>
      {| outcome :=
           Rejected (ThrownError (default {| message := "request failed" |} lastError));
         activeApiBaseUrl := active;
         attempted := [] |}
  | baseUrl :: rest =>
      if decide (baseUrl ∈ triedBases) then export_sweep rest triedBases lastError active
      else
        let triedBases := {[baseUrl]} ∪ triedBases in
        record_attempt baseUrl
          match export_try_block baseUrl with
          | ExportContinue responseError =>
              export_sweep rest triedBases (Some responseError) active
          | ExportReturn response =>
              {| outcome := blob response;
                 activeApiBaseUrl := baseUrl;
                 attempted := [] |}
          | ExportThrow error => export_sweep rest triedBases (Some (as_Error error)) active
          end
  end.
End ExportRequest.

(** An argument left out takes the default ["forecast"]. *)
Definition exportAiModelWeights_path (model : option ExportModelTarget) : string :=
  "/monitoring/ai-models/export-weights?model=" +:+
  encodeURIComponent (ExportModelTarget_string (default forecast model)).

Definition exportAiModelWeights (model : option ExportModelTarget) (active : string) : Run B :=
  export_sweep (exportAiModelWeights_path model)
    (candidateBases NEXT_PUBLIC_API_BASE_URL active) ∅ None active.
End ExportWeights.

End ApiEndpoints.

(** ** Vocabulary for the statements about the endpoint functions *)

Module EndpointVocabulary.
Import Js Api ApiEndpoints.

(** A response read with [blob()], seen as one read with [json()]. *)
Definition as_json_response {B} (r : BlobResponse B) : Response B :=
  {| status := blob_status r; text := blob_text r; json := blob r |}.

(** A network for [fetch(url)], seen as one for [fetch(url, init)] that
    ignores the options. *)
Definition as_json_network {B} (fetch : string -> Settled (BlobResponse B))
  : string -> RequestInit -> Settled (Response B) :=
  fun url _ =>
    match fetch url with
    | Fulfilled r => Fulfilled (as_json_response r)
    | Rejected reason => Rejected reason
    end.

(** A candidate answers the export request with a successful response. *)
Definition export_succeeds {B} (fetch : string -> Settled (BlobResponse B))
           (path baseUrl : string) : bool :=
  match fetch (baseUrl +:+ path) with
  | Fulfilled response => blob_ok response
  | Rejected _ => false
  end.

End EndpointVocabulary.

Module EndpointExamples.
Import Js Api ApiEndpoints.

(** The primary host does not serve the export path; the first fallback
    answers with the weights. *)
Definition net_export (url : string) : Settled (BlobResponse string) :=
  if bool_decide
       (url = "http://localhost:8010/monitoring/ai-models/export-weights?model=anomaly") then
    Fulfilled {| blob_status := 200; blob_text := Fulfilled "weights";
                 blob := Fulfilled "weights" |}
  else
    Fulfilled {| blob_status := 404; blob_text := Fulfilled "Not Found";
                 blob := Fulfilled "Not Found" |}.

End EndpointExamples.

(** ** The alerts tab ([AlertsTab])

    The text of this component follows [apiRequest]'s module in
    [frontend/lib/api.ts]. *)

Module AlertsTab.

Inductive Severity : Type := warning | critical | info.

#[global] Instance Severity_eq_dec : EqDecision Severity.
Proof. solve_decision. Defined.

(** [Omit<Alert, "id" | "time" | "acknowledged">] *)
Record PoolEntry : Type := {
  pool_severity : Severity;
  pool_title : string;
  pool_message : string;
  pool_source : string;
}.

(** [id] is a Number that only ever holds an integer. *)
Record Alert : Type := {
  id : Z;
  severity : Severity;
  title : string;
  message : string;
  time : string;
  acknowledged : bool;
  source : string;
}.

Definition alertPool : list PoolEntry :=
  [ {| pool_severity := warning; pool_title := "Thermal Drift Detected";
       pool_message := "Zone-3 temperature exceeding threshold by 2.1C";
       pool_source := "Thermal Monitor" |};
    {| pool_severity := critical; pool_title := "Failover Triggered";
       pool_message := "Node-7 unresponsive -- backup node activated";
       pool_source := "Failover System" |};
    {| pool_severity := warning; pool_title := "Grid Load Spike";
       pool_message := "Mumbai sector at 94% capacity -- rebalancing";
       pool_source := "Grid Controller" |};
    {| pool_severity := warning; pool_title := "Model Drift Warning";
       pool_message := "RL model accuracy dropped to 91.3% -- retraining scheduled";
       pool_source := "ML Pipeline" |};
    {| pool_severity := critical; pool_title := "Connection Lost";
       pool_message := "Edge sensor cluster-4 offline -- auto-reconnecting";
       pool_source := "Network Monitor" |};
    {| pool_severity := info; pool_title := "Scheduled Maintenance";
       pool_message := "Node-12 maintenance window in 30 minutes";
       pool_source := "Scheduler" |};
    {| pool_severity := critical; pool_title := "Memory Pressure";
       pool_message := "Decision engine heap usage at 92% -- GC triggered";
       pool_source := "Runtime Controller" |};
    {| pool_severity := info; pool_title := "Model Update Available";
       pool_message := "RL Agent v7.3.0 ready for deployment";
       pool_source := "ML Pipeline" |};
    {| pool_severity := warning; pool_title := "Latency Spike";
       pool_message := "API response time exceeded 500ms threshold";
       pool_source := "API Gateway" |} ].

(** [{ ...pool, id, time, acknowledged: false }] *)
Definition new_alert (pool : PoolEntry) (id : Z) (time : string) : Alert :=
  {| id := id;
     severity := pool_severity pool;
     title := pool_title pool;
     message := pool_message pool;
     time := time;
     acknowledged := false;
     source := pool_source pool |}.

Inductive FilterType : Type := all | only (severity : Severity).

(** The [useState] cells of the component and the [nextId] variable of
    its effect. *)
Record State : Type := {
  alerts : list Alert;
  filter_ : FilterType;
  nextId : Z;
}.

(** [nextId++] on a Number: exact up to 2^53, where adding 1 no longer
    changes the value. *)
Definition increment (n : Z) : Z := if n <? 2 ^ 53 then n + 1 else n.

(** The effect run on mount; [clock i] is the time string read for the
    [i]-th alert. *)
Definition mount (clock : nat -> string) : State :=
  {| alerts :=
       imap (fun i a => new_alert a (Z.of_nat i) (clock i)) (take 5 alertPool);
     filter_ := all;
     nextId := 5 |}.

(** The interval callback; [pool] is the entry
    [alertPool[Math.floor(Math.random() * alertPool.length)]] and [time] the
    time string read.  The state update that the callback queues reads
    [nextId] when it is applied; it is applied here at once, that is, before
    the interval fires again. *)
Definition tick (pool : PoolEntry) (time : string) (s : State) : State :=
  let nextId := increment (nextId s) in
  {| alerts := new_alert pool nextId time :: take 30 (alerts s);
     filter_ := filter_ s;
     nextId := nextId |}.

Definition with_alerts (f : list Alert -> list Alert) (s : State) : State :=
  {| alerts := f (alerts s); filter_ := filter_ s; nextId := nextId s |}.

Definition flip_acknowledged (a : Alert) : Alert :=
  {| id := id a; severity := severity a; title := title a; message := message a;
     time := time a; acknowledged := negb (acknowledged a); source := source a |}.

Definition set_acknowledged (a : Alert) : Alert :=
  {| id := id a; severity := severity a; title := title a; message := message a;
     time := time a; acknowledged := true; source := source a |}.

Definition toggleAcknowledge (id' : Z) : State -> State :=
  with_alerts (map (fun a => if bool_decide (id a = id') then flip_acknowledged a else a)).

Definition dismissAlert (id' : Z) : State -> State :=
  with_alerts (filter (fun a => id a ≠ id')).

(** The "Ack All" button. *)
Definition acknowledgeAll : State -> State :=
  with_alerts (map set_acknowledged).

Definition setFilter (f : FilterType) (s : State) : State :=
  {| alerts := alerts s; filter_ := f; nextId := nextId s |}.

Definition matches (f : FilterType) (a : Alert) : bool :=
  match f with
  | all => true
  | only sev => bool_decide (severity a = sev)
  end.

Definition filteredAlerts (s : State) : list Alert :=
  filter (fun a => matches (filter_ s) a = true) (alerts s).

Record Counts : Type := {
  count_all : nat;
  count_critical : nat;
  count_warning : nat;
  count_info : nat;
}.

Definition counts (s : State) : Counts :=
  {| count_all := length (alerts s);
     count_critical := length (filter (fun a => severity a = critical) (alerts s));
     count_warning := length (filter (fun a => severity a = warning) (alerts s));
     count_info := length (filter (fun a => severity a = info) (alerts s)) |}.

(** What can happen to the mounted component. *)
Inductive Event : Type :=
| Tick (pool : PoolEntry) (time : string)
| ToggleAcknowledge (id : Z)
| DismissAlert (id : Z)
| AcknowledgeAll
| SetFilter (f : FilterType).

Definition step (s : State) (e : Event) : State :=
  match e with
  | Tick pool time => tick pool time s
  | ToggleAcknowledge id => toggleAcknowledge id s
  | DismissAlert id => dismissAlert id s
  | AcknowledgeAll => acknowledgeAll s
  | SetFilter f => setFilter f s
  end.

Definition run (clock : nat -> string) (events : list Event) : State :=
  fold_left step events (mount clock).

(** What holds of the ids in every state: they are distinct, lie between
    0 and [nextId], and none of them is 5. *)
Definition ids_fresh (s : State) : Prop :=
  NoDup (id <$> alerts s) /\
  5 <= nextId s /\
  forall i, i ∈ id <$> alerts s -> 0 <= i <= nextId s /\ i ≠ 5.

End AlertsTab.

(** ** The settings tab ([SettingsTab])

    The text of this component follows [TelemetryPanel]'s module in
    [frontend/components/dashboard/telemetry-panel.tsx]. *)

Module SettingsTab.

Inductive Icon : Type := Cpu | Bell | Database | Shield | Moon | Globe.

Record SettingToggle : Type := {
  id : string;
  label : string;
  description : string;
  enabled : bool;
  icon : Icon;
}.

(** The initial value of the [toggles] state. *)
Definition initial_toggles : list SettingToggle :=
  [ {| id := "auto-mode"; label := "Autonomous Mode";
       description := "Allow AI to make decisions without human approval";
       enabled := true; icon := Cpu |};
    {| id := "alerts"; label := "Real-time Alerts";
       description := "Push notifications for critical and warning events";
       enabled := true; icon := Bell |};
    {| id := "auto-retrain"; label := "Auto Model Retraining";
       description := "Automatically retrain models when accuracy dips below threshold";
       enabled := true; icon := Database |};
    {| id := "failover"; label := "Auto Failover";
       description := "Automatically activate backup nodes on failure detection";
       enabled := true; icon := Shield |};
    {| id := "dark-mode"; label := "Dark Interface";
       description := "Use dark color scheme for control center";
       enabled := true; icon := Moon |};
    {| id := "telemetry"; label := "Send Telemetry";
       description := "Share anonymized performance data for system improvement";
       enabled := false; icon := Globe |} ].

Definition flip (t : SettingToggle) : SettingToggle :=
  {| id := id t; label := label t; description := description t;
     enabled := negb (enabled t); icon := icon t |}.

Definition toggle (id' : string) (toggles : list SettingToggle) : list SettingToggle :=
  map (fun t => if bool_decide (id t = id') then flip t else t) toggles.

(** The toggles after a series of clicks, each on the setting named. *)
Definition after_clicks (clicks : list string) : list SettingToggle :=
  fold_left (fun toggles id' => toggle id' toggles) clicks initial_toggles.

(** Whether [id'] occurs an odd number of times in [clicks]. *)
Definition odd_clicks (id' : string) (clicks : list string) : bool :=
  Nat.odd (length (filter (fun c => c = id') clicks)).

End SettingsTab.

Module AlertsExamples.
Import AlertsTab.

Definition example_clock (_ : nat) : string := "10:00:00".

(** Two alerts arrive, the older of them is dismissed and one of the
    initial alerts is acknowledged. *)
Definition example_events : list Event :=
  [ Tick {| pool_severity := info; pool_title := "Scheduled Maintenance";
            pool_message := "Node-12 maintenance window in 30 minutes";
            pool_source := "Scheduler" |} "10:00:07";
    Tick {| pool_severity := warning; pool_title := "Latency Spike";
            pool_message := "API response time exceeded 500ms threshold";
            pool_source := "API Gateway" |} "10:00:14";
    DismissAlert 6;
    ToggleAcknowledge 2 ].

End AlertsExamples.

(** ** Vocabulary for the statements about the live-scan poll *)

Module PollVocabulary.
Import Page.

(** What holds of the lock in every state the component reaches: the lock
    and the scanning indicator go together, the lock is held only while a
    request is in flight, and the requests in flight are distinct ones
    among those issued. *)
Definition lock_consistent (s : State) : Prop :=
  isScanning s = requestLock s /\
  (requestLock s = true -> inFlight s ≠ []) /\
  NoDup (call <$> inFlight s) /\
  forall id, id ∈ call <$> inFlight s -> (id < issued s)%nat.

End PollVocabulary.

(** ** [frontend/lib/api.ts]: [toDecisionPayload] *)

Module DecisionRequest.
Import JsNumber Js.

Record TelemetryInput : Type := {
  energy : number;
  temperature : number;
  gridLoad : number;
  location : string;
}.

(** The own properties of the object literal [locationToBuildingId]. *)
Definition locationToBuildingId : gmap string number :=
  list_to_map
    [("Mumbai", of_Z 1); ("Delhi", of_Z 2); ("Bangalore", of_Z 3);
     ("Chennai", of_Z 4); ("Kolkata", of_Z 5); ("Hyderabad", of_Z 6)].

(** What reading a property of that object gives: a number of its own, a
    member inherited from [Object.prototype] (a function, or the prototype
    itself), or [undefined] replaced by 0. *)
Inductive BuildingId : Type :=
| OwnNumber (n : number)
| Inherited (name : string).

Record DecisionPayload : Type := {
  building_id : BuildingId;
  current_load : number;
  energy_usage_kwh : number;
  payload_temperature : number;
  humidity : number;
  occupancy : number;
  day_of_week : Z;
  hour : Z;
  grid_load : number;
  payload_location : string;
  state : string;
}.

Section Payload.
(** The names of the members of [Object.prototype] in the runtime
    ("constructor", "toString", ...). *)
Variable Object_prototype_has : string -> bool.
(** [getDay()] and [getHours()] of the date with a given time value, in
    the time zone of the runtime. *)
Variable getDay : Z -> Z.
Variable getHours : Z -> Z.

(** [locationToBuildingId[location] ?? 0] *)
Definition building_id_of (location : string) : BuildingId :=
  match locationToBuildingId !! location with
  | Some n => OwnNumber n
  | None => if Object_prototype_has location then Inherited location else OwnNumber zero
  end.

(** [now] is the time value read by [new Date()]. *)
Definition toDecisionPayload (payload : TelemetryInput) (now : Z) : DecisionPayload :=
  let occupancy :=
    Math_max (of_Z 1)
      (Math_round
         (SFmul prec emax (SFdiv prec emax (gridLoad payload) (of_Z 100)) (of_Z 1000))) in
  {| building_id := building_id_of (location payload);
     current_load := energy payload;
     energy_usage_kwh := energy payload;
     payload_temperature := temperature payload;
     humidity := of_Z 50;
     occupancy := occupancy;
     day_of_week := getDay now;
     hour := getHours now;
     grid_load := gridLoad payload;
     payload_location := location payload;
     state := if SFleb (of_Z 85) (gridLoad payload) then "high_load" else "normal" |}.
End Payload.

End DecisionRequest.

Module DecisionRequestExamples.
Import JsNumber DecisionRequest.

(** The inherited member names of a current runtime. *)
Definition example_Object_prototype_has (name : string) : bool :=
  bool_decide
    (name ∈ ["constructor"; "__defineGetter__"; "__defineSetter__"; "hasOwnProperty";
             "__lookupGetter__"; "__lookupSetter__"; "isPrototypeOf";
             "propertyIsEnumerable"; "toString"; "valueOf"; "__proto__";
             "toLocaleString"]).

Definition example_getDay (_ : Z) : Z := 1.
Definition example_getHours (_ : Z) : Z := 15.

Definition pune_input : TelemetryInput :=
  {| energy := of_Z 420; temperature := of_Z 31; gridLoad := of_Z 90; location := "Pune" |}.

End DecisionRequestExamples.

(** ** [frontend/app/page.tsx]: the runtime controls of [DashboardOverview]

    [updateRuntimeMode] and [triggerScenario] are async callbacks with two
    awaits each: the control request, then the forced [fetchLiveData].  As
    for [fetchLiveData], each is split at its awaits, and a suspended
    invocation is kept as a history variable until it completes.  The guards
    read [isModeUpdating] and [isScenarioUpdating] as of the last render;
    the component is rendered again between two events, so they read the
    current state. *)

Module Controls.
Import JsNumber Js Page.

Definition RuntimeMode_string (m : RuntimeMode) : string :=
  match m with
  | LIVE_EDGE => "LIVE_EDGE"
  | SIMULATION => "SIMULATION"
  | HYBRID => "HYBRID"
  end.

Definition SimulationScenario_string (s : SimulationScenario) : string :=
  match s with
  | normal => "normal"
  | peak_load => "peak_load"
  | low_load => "low_load"
  | grid_failure => "grid_failure"
  end.

(** [s.replace(pattern, replacement)] for a string pattern and a
    replacement without [$]: the first occurrence is replaced. *)
Fixpoint replace_first (pattern replacement s : string) : string :=
  if String.prefix pattern s
  then replacement +:+ String.substring (String.length pattern)
                         (String.length s - String.length pattern) s
  else match s with
       | EmptyString => EmptyString
       | String c rest => String c (replace_first pattern replacement rest)
       end.

Record RuntimeControlResponse : Type := {
  status : string;
  mode : option RuntimeMode;
  scenario : option SimulationScenario;
  cycles : option number;
  timestamp : string;
}.

(** What a suspended invocation waits for: its control request, numbered
    by its position among the requests made, or the forced
    [fetchLiveData] it started. *)
Inductive Awaiting : Type :=
| AwaitingRequest (request : nat)
| AwaitingRefetch (call : nat).

#[global] Instance Awaiting_eq_dec : EqDecision Awaiting.
Proof. solve_decision. Defined.

Record ModeAction : Type := {
  nextMode : RuntimeMode;
  mode_awaiting : Awaiting;
}.

Record ScenarioAction : Type := {
  nextScenario : SimulationScenario;
  scenario_awaiting : Awaiting;
}.

(** The state of [DashboardOverview]: the part [fetchLiveData] works on,
    the remaining [useState] cells, and as history variables the suspended
    invocations and the control requests made so far. *)
Record State : Type := {
  page : Page.State;
  controlStatus : option string;
  isModeUpdating : bool;
  isScenarioUpdating : bool;
  modeActions : list ModeAction;
  scenarioActions : list ScenarioAction;
  modeRequests : list RuntimeMode;
  scenarioRequests : list (SimulationScenario * number);
}.

Definition initial : State :=
  {| page := Page.initial;
     controlStatus := None;
     isModeUpdating := false;
     isScenarioUpdating := false;
     modeActions := [];
     scenarioActions := [];
     modeRequests := [];
     scenarioRequests := [] |}.

Definition set_runtimeMode (m : RuntimeMode) (p : Page.State) : Page.State :=
  {| liveData := liveData p; uiDecision := uiDecision p; decisionError := decisionError p;
     isScanning := isScanning p; runtimeMode := m; scenarioState := scenarioState p;
     requestLock := requestLock p; inFlight := inFlight p; issued := issued p |}.

Definition set_scenarioState (sc : SimulationScenario) (p : Page.State) : Page.State :=
  {| liveData := liveData p; uiDecision := uiDecision p; decisionError := decisionError p;
     isScanning := isScanning p; runtimeMode := runtimeMode p; scenarioState := sc;
     requestLock := requestLock p; inFlight := inFlight p; issued := issued p |}.

Definition set_decisionError (e : option string) (p : Page.State) : Page.State :=
  {| liveData := liveData p; uiDecision := uiDecision p; decisionError := e;
     isScanning := isScanning p; runtimeMode := runtimeMode p;
     scenarioState := scenarioState p;
     requestLock := requestLock p; inFlight := inFlight p; issued := issued p |}.

(** [error instanceof Error ? error.message : fallback] *)
Definition message_or (fallback : string) (error : Thrown) : string :=
  match error with
  | ThrownError e => message e
  | ThrownOther => fallback
  end.

Definition forced : option Options := Some {| force := Some true |}.

(** *** [updateRuntimeMode] *)

(** Up to the first await: the guard, the optimistic update, and the call
    of [setRuntimeMode]. *)
Definition updateRuntimeMode_invoke (nextMode : RuntimeMode) (s : State) : State :=
  if isModeUpdating s then s
  else
    {| page := set_runtimeMode nextMode (page s);
       controlStatus :=
         Some ("Applying mode " +:+ replace_first "_" " " (RuntimeMode_string nextMode)
                 +:+ "...");
       isModeUpdating := true;
       isScenarioUpdating := isScenarioUpdating s;
       modeActions :=
         modeActions s ++ [{| nextMode := nextMode;
                              mode_awaiting := AwaitingRequest (length (modeRequests s)) |}];
       scenarioActions := scenarioActions s;
       modeRequests := modeRequests s ++ [nextMode];
       scenarioRequests := scenarioRequests s |}.

(** From the first await on, for the invocation that made this request:
    on success the applied mode is shown and [fetchLiveData] is forced,
    whose completion is awaited; on failure the [catch] and [finally] blocks
    run. *)
Definition updateRuntimeMode_resume (action : ModeAction)
           (result : Settled RuntimeControlResponse) (s : State) : State :=
  let others :=
    filter (fun a => mode_awaiting a ≠ mode_awaiting action) (modeActions s) in
  match result with
  | Fulfilled response =>
      let appliedMode := default (nextMode action) (mode response) in
      let p := set_runtimeMode appliedMode (page s) in
      {| page := fetchLiveData_invoke forced p;
         controlStatus :=
           Some ("Runtime mode set to "
                   +:+ replace_first "_" " " (RuntimeMode_string appliedMode));
         isModeUpdating := isModeUpdating s;
         isScenarioUpdating := isScenarioUpdating s;
         modeActions :=
           others ++ [{| nextMode := nextMode action;
                         mode_awaiting := AwaitingRefetch (issued p) |}];
         scenarioActions := scenarioActions s;
         modeRequests := modeRequests s;
         scenarioRequests := scenarioRequests s |}
  | Rejected error =>
      {| page := set_decisionError (Some (message_or "Failed to change mode" error)) (page s);
         controlStatus := None;
         isModeUpdating := false;
         isScenarioUpdating := isScenarioUpdating s;
         modeActions := others;
         scenarioActions := scenarioActions s;
         modeRequests := modeRequests s;
         scenarioRequests := scenarioRequests s |}
  end.

Definition updateRuntimeMode_settle (request : nat)
           (result : Settled RuntimeControlResponse) (s : State) : State :=
  match list_find (fun a => mode_awaiting a = AwaitingRequest request) (modeActions s) with
  | Some (_, action) => updateRuntimeMode_resume action result s
  | None => s
  end.

(** *** [triggerScenario] *)

Definition cycles_for (nextScenario : SimulationScenario) : number :=
  match nextScenario with
  | normal => of_Z 0
  | _ => of_Z 12
  end.

Definition triggerScenario_invoke (nextScenario : SimulationScenario) (s : State) : State :=
  if isScenarioUpdating s then s
  else
    {| page := set_scenarioState nextScenario (page s);
       controlStatus :=
         Some ("Injecting scenario "
                 +:+ replace_first "_" " " (SimulationScenario_string nextScenario)
                 +:+ "...");
       isModeUpdating := isModeUpdating s;
       isScenarioUpdating := true;
       modeActions := modeActions s;
       scenarioActions :=
         scenarioActions s
           ++ [{| nextScenario := nextScenario;
                  scenario_awaiting := AwaitingRequest (length (scenarioRequests s)) |}];
       modeRequests := modeRequests s;
       scenarioRequests := scenarioRequests s ++ [(nextScenario, cycles_for nextScenario)] |}.

Definition triggerScenario_resume (action : ScenarioAction)
           (result : Settled RuntimeControlResponse) (s : State) : State :=
  let others :=
    filter (fun a => scenario_awaiting a ≠ scenario_awaiting action) (scenarioActions s) in
  match result with
  | Fulfilled response =>
      let appliedScenario := default (nextScenario action) (scenario response) in
      let p := set_scenarioState appliedScenario (page s) in
      {| page := fetchLiveData_invoke forced p;
         controlStatus :=
           Some ("Scenario active: "
                   +:+ replace_first "_" " " (SimulationScenario_string appliedScenario));
         isModeUpdating := isModeUpdating s;
         isScenarioUpdating := isScenarioUpdating s;
         modeActions := modeActions s;
         scenarioActions :=
           others ++ [{| nextScenario := nextScenario action;
                         scenario_awaiting := AwaitingRefetch (issued p) |}];
         modeRequests := modeRequests s;
         scenarioRequests := scenarioRequests s |}
  | Rejected error =>
      {| page := set_decisionError (Some (message_or "Failed to set scenario" error)) (page s);
         controlStatus := None;
         isModeUpdating := isModeUpdating s;
         isScenarioUpdating := false;
         modeActions := modeActions s;
         scenarioActions := others;
         modeRequests := modeRequests s;
         scenarioRequests := scenarioRequests s |}
  end.

Definition triggerScenario_settle (request : nat)
           (result : Settled RuntimeControlResponse) (s : State) : State :=
  match list_find (fun a => scenario_awaiting a = AwaitingRequest request)
                  (scenarioActions s) with
  | Some (_, action) => triggerScenario_resume action result s
  | None => s
  end.

(** *** The event loop *)

Section Loop.
Variable StringToNumber : string -> number.
Variable Date_parse : string -> option Z.
Variable toLocaleTimeString : Z -> string.

(** A request of [fetchLiveData] settles: the invocation that awaits it
    runs to its end, and so does the [finally] block of a control callback
    that awaits that invocation. *)
Definition fetch_settle (id : nat) (result : Settled LiveDashboardResponse) (now : Z)
           (s : State) : State :=
  if bool_decide (id ∈ call <$> inFlight (page s)) then
    let waits_mode := bool_decide (Exists (fun a => mode_awaiting a = AwaitingRefetch id)
                                          (modeActions s)) in
    let waits_scenario :=
      bool_decide (Exists (fun a => scenario_awaiting a = AwaitingRefetch id)
                          (scenarioActions s)) in
    {| page := fetchLiveData_settle StringToNumber Date_parse toLocaleTimeString
                 id result now (page s);
       controlStatus := controlStatus s;
       isModeUpdating := if waits_mode then false else isModeUpdating s;
       isScenarioUpdating := if waits_scenario then false else isScenarioUpdating s;
       modeActions := filter (fun a => mode_awaiting a ≠ AwaitingRefetch id) (modeActions s);
       scenarioActions :=
         filter (fun a => scenario_awaiting a ≠ AwaitingRefetch id) (scenarioActions s);
       modeRequests := modeRequests s;
       scenarioRequests := scenarioRequests s |}
  else s.

Definition timer_tick (s : State) : State :=
  {| page := fetchLiveData_invoke None (page s);
     controlStatus := controlStatus s;
     isModeUpdating := isModeUpdating s;
     isScenarioUpdating := isScenarioUpdating s;
     modeActions := modeActions s;
     scenarioActions := scenarioActions s;
     modeRequests := modeRequests s;
     scenarioRequests := scenarioRequests s |}.

Inductive Event : Type :=
| TimerTick
| FetchSettled (id : nat) (result : Settled LiveDashboardResponse) (now : Z)
| ClickMode (nextMode : RuntimeMode)
| ModeSettled (request : nat) (result : Settled RuntimeControlResponse)
| ClickScenario (nextScenario : SimulationScenario)
| ScenarioSettled (request : nat) (result : Settled RuntimeControlResponse).

Definition step (s : State) (e : Event) : State :=
  match e with
  | TimerTick => timer_tick s
  | FetchSettled id result now => fetch_settle id result now s
  | ClickMode nextMode => updateRuntimeMode_invoke nextMode s
  | ModeSettled request result => updateRuntimeMode_settle request result s
  | ClickScenario nextScenario => triggerScenario_invoke nextScenario s
  | ScenarioSettled request result => triggerScenario_settle request result s
  end.

Definition run (events : list Event) : State := fold_left step events initial.
End Loop.

(** What holds of the mode control in every state the component reaches:
    at most one invocation of [updateRuntimeMode] is suspended, the flag
    is set exactly while one is, and what it waits for is outstanding. *)
Definition mode_control_consistent (s : State) : Prop :=
  (length (modeActions s) <= 1)%nat /\
  (isModeUpdating s = true <-> modeActions s ≠ []) /\
  forall a, a ∈ modeActions s ->
    match mode_awaiting a with
    | AwaitingRequest r => S r = length (modeRequests s)
    | AwaitingRefetch id => id ∈ call <$> inFlight (page s)
    end.

Definition scenario_control_consistent (s : State) : Prop :=
  (length (scenarioActions s) <= 1)%nat /\
  (isScenarioUpdating s = true <-> scenarioActions s ≠ []) /\
  forall a, a ∈ scenarioActions s ->
    match scenario_awaiting a with
    | AwaitingRequest r => S r = length (scenarioRequests s)
    | AwaitingRefetch id => id ∈ call <$> inFlight (page s)
    end.

End Controls.

Module ControlsExamples.
Import Js Page Controls.

(** A click on HYBRID in the initial state. *)
Definition hybrid_requested : State := updateRuntimeMode_invoke HYBRID initial.

(** A click on "grid_failure" in the initial state. *)
Definition grid_failure_requested : State := triggerScenario_invoke grid_failure initial.

End ControlsExamples.

(** ** [frontend/components/dashboard/telemetry-panel.tsx]: the values
    that [TelemetryPanel] derives from its props *)

Module TelemetryPanel.
Import JsNumber Js.

Record IndustrialMetrics : Type := {
  site_id : string;
  energy_usage_kwh : number;
  thermal_index_c : number;
  grid_load : number;
  grid_status : string;
  fault_flag : bool;
}.

(** The properties of [LiveDashboardResponse["telemetry"]] that the panel
    reads; [battery_percent] and [power_plugged] may be [null]. *)
Record Telemetry : Type := {
  hostname : string;
  battery_percent : option number;
  power_plugged : option bool;
  industrial_metrics : option IndustrialMetrics;
}.

(** The values shown: the three readings, the positions of the energy
    and thermal sliders, and the texts of the badges. *)
Record Readings : Type := {
  energyUsage : number;
  energySlider : number;
  thermalIndex : number;
  thermalSlider : number;
  gridLoad : number;
  gridStatus : string;
  siteId : string;
  battery : option number;
  batteryText : string;
  powerText : string;
  edgeText : string;
}.

Section Panel.
(** [String(x)] for a Number, as the runtime prints it. *)
Variable Number_toString : number -> string.

Definition readings (telemetry : option Telemetry) : Readings :=
  let industrial := telemetry ≫= industrial_metrics in
  let energyUsage := Math_round (default zero (energy_usage_kwh <$> industrial)) in
  let thermalIndex := Math_round (default zero (thermal_index_c <$> industrial)) in
  let gridLoad :=
    Math_round (SFmul prec emax (default zero (grid_load <$> industrial)) (of_Z 100)) in
  let battery := Math_round <$> (telemetry ≫= battery_percent) in
  {| energyUsage := energyUsage;
     energySlider :=
       ApiEndpoints.Math_min (of_Z 100)
         (Math_round
            (SFmul prec emax (SFdiv prec emax energyUsage (of_Z 1000)) (of_Z 100)));
     thermalIndex := thermalIndex;
     thermalSlider :=
       ApiEndpoints.Math_min (of_Z 100)
         (Math_round
            (SFmul prec emax (SFdiv prec emax thermalIndex (of_Z 90)) (of_Z 100)));
     gridLoad := gridLoad;
     gridStatus := default "unknown" (grid_status <$> industrial);
     siteId := default "plant-local" (site_id <$> industrial);
     battery := battery;
     batteryText :=
       match battery with
       | None => "N/A"
       | Some b => Number_toString b +:+ "%"
       end;
     powerText :=
       match telemetry ≫= power_plugged with
       | None => "Power N/A"
       | Some true => "Plugged"
       | Some false => "Battery"
       end;
     edgeText := "Edge: " +:+ default "local-machine" (hostname <$> telemetry) |}.
End Panel.

End TelemetryPanel.
(** * Properties of the number model *)

(* [set_solver] clears hypotheses by name, some of which may be absent. *)
Local Set Warnings "-clear-no-such-hyp".

Section NumberProperties.
Import JsNumber.

(** [decimal] agrees with the binary64 values that the prover's own
    floating-point literals denote. *)
#[warnings="-inexact-float"]
Example decimal_literals :
  Prim2SF 12.7%float = decimal false 127 1 /\
  Prim2SF 3.456%float = decimal false 3456 3 /\
  Prim2SF 0.914%float = decimal false 914 3 /\
  Prim2SF 3.46%float = decimal false 346 2 /\
  Prim2SF 0.91%float = decimal false 91 2 /\
  Prim2SF (-5.2)%float = decimal true 52 1 /\
  Prim2SF 13%float = of_Z 13.
Proof. repeat split. Qed.

Lemma digits2_pos_size p : digits2_pos p = Pos.size p.
Proof. induction p; simpl; congruence. Qed.

Lemma digits2_pos_bounds p :
  2 ^ Z.pos (digits2_pos p) <= 2 * Z.pos p /\ Z.pos p < 2 ^ Z.pos (digits2_pos p).
Proof.
  rewrite digits2_pos_size. split.
  - pose proof (Pos.size_le p) as H. apply Pos2Z.pos_le_pos in H.
    rewrite Pos2Z.inj_pow in H. exact H.
  - pose proof (Pos.size_gt p) as H. apply Pos2Z.pos_lt_pos in H.
    rewrite Pos2Z.inj_pow in H. exact H.
Qed.

Lemma digits2_pos_le p q :
  Z.pos p <= Z.pos q -> Z.pos (digits2_pos p) <= Z.pos (digits2_pos q).
Proof.
  intros Hle.
  pose proof (digits2_pos_bounds p) as [Hp _].
  pose proof (digits2_pos_bounds q) as [_ Hq].
  assert (H : 2 ^ Z.pos (digits2_pos p) < 2 ^ (Z.pos (digits2_pos q) + 1)).
  { rewrite Z.pow_add_r by lia. lia. }
  apply Z.pow_lt_mono_r_iff in H; lia.
Qed.

Lemma iter_xO_spec k p : Z.pos (Pos.iter xO p k) = Z.pos p * 2 ^ Z.pos k.
Proof.
  revert p. induction k as [|k IH] using Pos.peano_ind; intros p.
  - simpl. lia.
  - rewrite Pos.iter_succ, Pos2Z.inj_xO, IH, Pos2Z.inj_succ, Z.pow_succ_r by lia. lia.
Qed.

Lemma iter_xO_digits k p : digits2_pos (Pos.iter xO p k) = (digits2_pos p + k)%positive.
Proof.
  induction k as [|k IH] using Pos.peano_ind.
  - simpl. lia.
  - rewrite Pos.iter_succ. cbn [digits2_pos]. rewrite IH. lia.
Qed.

Lemma binary_round_aux_canonical s m e :
  Z.pos (digits2_pos m) = 53 -> -1074 <= e <= 971 ->
  binary_round_aux prec emax s (Z.pos m) e loc_Exact = S754_finite s m e.
Proof.
  intros Hd He. unfold binary_round_aux, shr_fexp. cbn [Zdigits2 shr_record_of_loc].
  rewrite Hd.
  replace (fexp prec emax (53 + e)) with e by (unfold fexp, SpecFloat.emin, prec, emax; lia).
  rewrite Z.sub_diag. cbn [shr shr_m loc_of_shr_record round_nearest_even Zdigits2 shr_record_of_loc].
  rewrite Hd.
  replace (fexp prec emax (53 + e)) with e by (unfold fexp, SpecFloat.emin, prec, emax; lia).
  rewrite Z.sub_diag. cbn [shr shr_m].
  replace (e <=? emax - prec) with true; [reflexivity|].
  symmetry. apply Z.leb_le. unfold emax, prec. lia.
Qed.

Lemma binary_round_integer s p :
  Z.pos (digits2_pos p) <= 53 ->
  exists m e, binary_round prec emax s p 0 = S754_finite s m e /\
              -52 <= e <= 0 /\ Z.pos m = Z.pos p * 2 ^ (- e).
Proof.
  intros Hd. unfold binary_round, shl_align.
  replace (fexp prec emax (Z.pos (digits2_pos p) + 0)) with (Z.pos (digits2_pos p) - 53)
    by (unfold fexp, SpecFloat.emin, prec, emax; lia).
  rewrite Z.sub_0_r.
  destruct (Z.pos (digits2_pos p) - 53) as [|k|k] eqn:Hk; [|lia|].
  - exists p, 0. split; [|simpl; lia].
    apply binary_round_aux_canonical; lia.
  - exists (Pos.iter xO p k), (Z.neg k). split; [|split; [lia|]].
    + apply binary_round_aux_canonical; [|lia].
      rewrite iter_xO_digits. lia.
    + rewrite iter_xO_spec. reflexivity.
Qed.

End NumberProperties.

(** * Properties of [apiRequest] *)

Section ApiRequestProperties.
Import Js Api.

Context (env : option string) {T : Type}
        (fetch : string -> RequestInit -> Settled (Response T))
        (path : string) (requestInit : RequestInit).

Local Abbreviation try_block := (Api.try_block T fetch path requestInit).
Local Abbreviation sweep := (Api.sweep T fetch path requestInit).
Local Abbreviation succeeds := (ApiVocabulary.succeeds fetch path requestInit).
Local Abbreviation recorded_error := (ApiVocabulary.recorded_error fetch path requestInit).

Lemma try_block_Return baseUrl response :
  try_block baseUrl = Return response <->
  fetch (baseUrl +:+ path) requestInit = Fulfilled response /\ ok response = true.
Proof.
  unfold Api.try_block.
  destruct (fetch _ _) as [r|t]; [|split; [discriminate | intros [? _]; discriminate]].
  destruct (ok r) eqn:Hok; simpl.
  - split; [intros [= ->]; auto | intros [[= ->] _]; reflexivity].
  - split; [|intros [[= <-] ?]; congruence].
    destruct (text r); [destruct (_ =? _)%N|]; discriminate.
Qed.

Lemma succeeds_Return baseUrl :
  succeeds baseUrl = true <-> exists response, try_block baseUrl = Return response.
Proof.
  unfold succeeds. split.
  - destruct (fetch _ _) as [r|t] eqn:Hf; [|discriminate].
    intros Hok. exists r. apply try_block_Return. auto.
  - intros [r [Hf Hok]%try_block_Return]. rewrite Hf. exact Hok.
Qed.

Lemma not_succeeds_recorded baseUrl :
  succeeds baseUrl = false -> exists e, recorded_error baseUrl = Some e.
Proof.
  intros Hs. unfold recorded_error.
  destruct (try_block baseUrl) as [e|r|t] eqn:Hb; eauto.
  assert (succeeds baseUrl = true) by (apply succeeds_Return; eauto).
  congruence.
Qed.

(** The candidates on which [fetch] is called are distinct, were not
    tried before, and come from the candidate list. *)
Lemma sweep_attempted_fresh candidates :
  forall triedBases lastError active,
    let r := sweep candidates triedBases lastError active in
    NoDup (attempted r) /\
    forall b, b ∈ attempted r -> b ∈ candidates /\ b ∉ triedBases.
Proof.
  induction candidates as [|b rest IH]; intros tried lastError active; simpl.
  - split; [constructor | intros b Hb; inversion Hb].
  - destruct (decide (b ∈ tried)) as [Hin|Hnin].
    + destruct (IH tried lastError active) as [Hnd Hsub].
      split; [exact Hnd|]. intros c Hc. destruct (Hsub c Hc). split; [set_solver | done].
    + assert (Hrec : forall le,
                 let r := sweep rest ({[b]} ∪ tried) le active in
                 NoDup (b :: attempted r) /\
                 forall c, c ∈ b :: attempted r -> c ∈ b :: rest /\ c ∉ tried).
      { intros le. destruct (IH ({[b]} ∪ tried) le active) as [Hnd Hsub]. split.
        - constructor; [|exact Hnd]. intros Hb. destruct (Hsub b Hb). set_solver.
        - intros c [->|Hc]%elem_of_cons; [set_solver|].
          destruct (Hsub c Hc). set_solver. }
      destruct (try_block b) as [e|resp|t]; simpl; [apply Hrec | | apply Hrec].
      split; [apply NoDup_singleton|].
      intros c ->%list_elem_of_singleton. set_solver.
Qed.

(** On candidates that are distinct and not yet tried, [fetch] is called
    along the list, in its order, up to the point where the call ends. *)
Lemma sweep_attempted_prefix candidates :
  forall triedBases lastError active,
    NoDup candidates ->
    (forall b, b ∈ candidates -> b ∉ triedBases) ->
    attempted (sweep candidates triedBases lastError active) `prefix_of` candidates.
Proof.
  induction candidates as [|b rest IH]; intros tried lastError active Hnd Hfresh; simpl.
  - done.
  - apply NoDup_cons in Hnd as [Hb Hnd].
    destruct (decide (b ∈ tried)) as [Hin|Hnin]; [exfalso; apply (Hfresh b); set_solver|].
    assert (Hrec : forall le,
               b :: attempted (sweep rest ({[b]} ∪ tried) le active) `prefix_of` b :: rest).
    { intros le. apply prefix_cons, IH; [exact Hnd|].
      intros c Hc. specialize (Hfresh c). set_solver. }
    destruct (try_block b); simpl; [apply Hrec | | apply Hrec].
    apply prefix_cons, prefix_nil.
Qed.


(** When no candidate succeeds the whole list is swept, the call is
    rejected with the error stored last, and the active base URL is left
    as it was. *)
Lemma sweep_exhausted candidates :
  forall triedBases lastError active,
    NoDup candidates ->
    (forall b, b ∈ candidates -> b ∉ triedBases) ->
    (forall b, b ∈ candidates -> succeeds b = false) ->
    sweep candidates triedBases lastError active =
    {| outcome :=
         Rejected (ThrownError
           (default {| message := "request failed" |}
              (from_option Some lastError (last (omap recorded_error candidates)))));
       activeApiBaseUrl := active;
       attempted := candidates |}.
Proof.
  induction candidates as [|b rest IH]; intros tried lastError active Hnd Hfresh Hfail; simpl.
  - reflexivity.
  - apply NoDup_cons in Hnd as [Hb Hnd].
    destruct (decide (b ∈ tried)) as [Hin|Hnin]; [exfalso; apply (Hfresh b); set_solver|].
    assert (Hrec : forall le,
               sweep rest ({[b]} ∪ tried) le active = _) by
      (intros le; apply (IH ({[b]} ∪ tried) le active);
       [exact Hnd | intros c Hc; specialize (Hfresh c); set_solver
        | intros c Hc; apply Hfail; set_solver]).
    destruct (not_succeeds_recorded b) as [e He]; [apply Hfail; set_solver|].
    rewrite He. unfold recorded_error in He.
    assert (Hlast : forall l : list Error,
               from_option Some lastError (last (e :: l)) = from_option Some (Some e) (last l)).
    { intros l. rewrite last_cons. destruct (last l); reflexivity. }
    rewrite Hlast.
    destruct (try_block b) as [e'|resp|t]; [| discriminate |];
      injection He as <-; rewrite Hrec; reflexivity.
Qed.

(** The first candidate that succeeds, not tried before, ends the call:
    its [json()] is the result and it becomes the active base URL. *)
Lemma sweep_first_success pre c post response :
  forall triedBases lastError active,
    (forall b, b ∈ pre -> succeeds b = false) ->
    c ∉ triedBases ->
    fetch (c +:+ path) requestInit = Fulfilled response ->
    ok response = true ->
    let r := sweep (pre ++ c :: post) triedBases lastError active in
    outcome r = json response /\ activeApiBaseUrl r = c.
Proof.
  induction pre as [|b pre IH]; intros tried lastError active Hfail Hc Hf Hok; simpl.
  - destruct (decide (c ∈ tried)); [done|].
    assert (Hr : try_block c = Return response) by (apply try_block_Return; auto).
    rewrite Hr. simpl. auto.
  - destruct (decide (b ∈ tried)) as [Hin|Hnin].
    + apply IH; auto. intros; apply Hfail; set_solver.
    + assert (Hb : succeeds b = false) by (apply Hfail; set_solver).
      assert (Hne : c <> b).
      { intros ->. unfold succeeds in Hb. rewrite Hf in Hb. congruence. }
      assert (Hrec : forall le,
                 let r := sweep (pre ++ c :: post) ({[b]} ∪ tried) le active in
                 outcome r = json response /\ activeApiBaseUrl r = c).
      { intros le. apply IH; auto; [intros; apply Hfail|]; set_solver. }
      destruct (try_block b) as [e|resp|t] eqn:Hbk; simpl; [apply Hrec | | apply Hrec].
      assert (succeeds b = true) by (apply succeeds_Return; eauto). congruence.
Qed.

(** The active base URL after the sweep is the first candidate that
    succeeds, or the previous one when none does. *)
Lemma sweep_active candidates :
  forall triedBases lastError active,
    NoDup candidates ->
    (forall b, b ∈ candidates -> b ∉ triedBases) ->
    activeApiBaseUrl (sweep candidates triedBases lastError active) =
    default active (head (filter (fun b => succeeds b = true) candidates)).
Proof.
  induction candidates as [|b rest IH]; intros tried lastError active Hnd Hfresh; simpl.
  - reflexivity.
  - apply NoDup_cons in Hnd as [Hb Hnd].
    destruct (decide (b ∈ tried)) as [Hin|Hnin]; [exfalso; apply (Hfresh b); set_solver|].
    assert (Hrec : forall le,
               activeApiBaseUrl (sweep rest ({[b]} ∪ tried) le active) =
               default active (head (filter (fun b => succeeds b = true) rest))).
    { intros le. apply IH; [exact Hnd|]. intros c Hc. specialize (Hfresh c). set_solver. }
    rewrite filter_cons.
    destruct (try_block b) as [e|resp|t] eqn:Hbk; simpl.
    + destruct (decide (succeeds b = true)) as [Hs|Hs]; [|apply Hrec].
      apply succeeds_Return in Hs as [r Hr]. congruence.
    + destruct (decide (succeeds b = true)) as [Hs|Hs]; [reflexivity|].
      exfalso. apply Hs. apply succeeds_Return. eauto.
    + destruct (decide (succeeds b = true)) as [Hs|Hs]; [|apply Hrec].
      apply succeeds_Return in Hs as [r Hr]. congruence.
Qed.

(** What is stored in [lastError] for a candidate that answers 404. *)
Lemma recorded_error_404 baseUrl response body :
  fetch (baseUrl +:+ path) requestInit = Fulfilled response ->
  status response = 404%N ->
  text response = Fulfilled body ->
  recorded_error baseUrl =
  Some {| message := "API 404: " +:+ (if bool_decide (body = "") then "request failed" else body) |}.
Proof.
  intros Hf Hs Ht. unfold ApiVocabulary.recorded_error, Api.try_block.
  rewrite Hf. unfold ok. rewrite Hs, Ht. reflexivity.
Qed.

(** What is stored in [lastError] when the transport fails. *)
Lemma recorded_error_transport baseUrl reason :
  fetch (baseUrl +:+ path) requestInit = Rejected reason ->
  recorded_error baseUrl = Some (as_Error reason).
Proof.
  intros Hf. unfold ApiVocabulary.recorded_error, Api.try_block. rewrite Hf. reflexivity.
Qed.

End ApiRequestProperties.

(** The configured candidates, once passed through a [Set], are distinct
    and are those that are not in [seen]. *)
Lemma Array_from_Set_spec items :
  forall seen,
    NoDup (Api.Array_from_Set seen items) /\
    forall x, x ∈ Api.Array_from_Set seen items <-> x ∈ items /\ x ∉ seen.
Proof.
  induction items as [|y rest IH]; intros seen; simpl.
  - split; [constructor | set_solver].
  - destruct (decide (y ∈ seen)) as [Hin|Hnin].
    + destruct (IH seen) as [Hnd Hiff]. split; [exact Hnd|].
      intros x. rewrite Hiff. set_solver.
    + destruct (IH ({[y]} ∪ seen)) as [Hnd Hiff]. split.
      * constructor; [|exact Hnd]. rewrite Hiff. set_solver.
      * intros x. rewrite elem_of_cons, Hiff. split; [set_solver|].
        intros [[->|Hx]%elem_of_cons Hs]; [by left|].
        destruct (decide (x = y)) as [->|Hne]; [by left | right; set_solver].
Qed.

Lemma API_FALLBACK_CANDIDATES_NoDup env : NoDup (Api.API_FALLBACK_CANDIDATES env).
Proof. apply Array_from_Set_spec. Qed.

Lemma candidateBases_NoDup env active : NoDup (Api.candidateBases env active).
Proof.
  unfold Api.candidateBases. constructor.
  - rewrite list_elem_of_filter. tauto.
  - apply NoDup_filter, API_FALLBACK_CANDIDATES_NoDup.
Qed.

(** * The claims about [apiRequest] *)

Section ApiRequestClaims.
Import Js Api ApiVocabulary.

Context (env : option string) {T : Type}
        (fetch : string -> RequestInit -> Settled (Response T))
        (path : string) (init : option RequestInit) (active : string).

Local Abbreviation requestInit := (with_content_type init).
Local Abbreviation candidates := (candidateBases env active).
Local Abbreviation call := (apiRequest env T fetch path init active).


(** C3. When the candidate tried first answers 404 and [c] is the first
    later candidate to answer with a successful response, the call settles
    as that response's [json()] does, and the active base URL is [c]
    afterwards. *)
Theorem apiRequest_fallback_success first mid c post r404 response :
  candidates = first :: mid ++ c :: post ->
  fetch (first +:+ path) requestInit = Fulfilled r404 ->
  status r404 = 404%N ->
  (forall b, b ∈ mid -> succeeds fetch path requestInit b = false) ->
  fetch (c +:+ path) requestInit = Fulfilled response ->
  ok response = true ->
  outcome call = json response /\ activeApiBaseUrl call = c.
Proof.
  intros Hc Hf Hs Hmid Hfc Hok. unfold apiRequest. rewrite Hc.
  apply (sweep_first_success fetch path requestInit (first :: mid) c post response);
    [| set_solver | exact Hfc | exact Hok].
  intros b [->|Hb]%elem_of_cons; [|auto].
  unfold succeeds, ok. rewrite Hf, Hs. reflexivity.
Qed.

(** C4. When every candidate answers 404 or fails in transport, the call
    is rejected with the error recorded last (the generic "request failed"
    error standing in when none was recorded; here one always is).  Every
    candidate has been tried once, and the active base URL is unchanged. *)
Theorem apiRequest_all_fail :
  (forall b, b ∈ candidates ->
             returns_404 fetch path requestInit b = true \/
             transport_error fetch path requestInit b = true) ->
  outcome call =
    Rejected (ThrownError
      (default {| message := "request failed" |}
         (last (omap (recorded_error fetch path requestInit) candidates)))) /\
  is_Some (last (omap (recorded_error fetch path requestInit) candidates)) /\
  attempted call = candidates /\
  activeApiBaseUrl call = active.
Proof.
  intros Hfail.
  assert (Hns : forall b, b ∈ candidates -> succeeds fetch path requestInit b = false).
  { intros b Hb. unfold succeeds.
    destruct (Hfail b Hb) as [H|H]; revert H; unfold returns_404, transport_error, ok;
      destruct (fetch _ _) as [r|t]; try discriminate; [|reflexivity].
    intros ->%N.eqb_eq. reflexivity. }
  unfold apiRequest.
  rewrite (sweep_exhausted fetch path requestInit candidates ∅ None active);
    [| apply candidateBases_NoDup | set_solver | exact Hns].
  simpl. split; [|split; [|split]]; try reflexivity.
  - destruct (last _); reflexivity.
  - unfold Api.candidateBases in *.
    destruct (not_succeeds_recorded fetch path requestInit active) as [e He];
      [apply Hns; set_solver|].
    cbn [omap]. rewrite He. rewrite last_cons. destruct (last _); eauto.
Qed.


End ApiRequestClaims.

Section ApiRequestExamples.
Import Js Api ApiVocabulary Examples.

Local Abbreviation status_path := "/autonomous-ai/status"%string.
Local Abbreviation primary := "http://localhost:8000"%string.

Lemma default_candidates :
  candidateBases None primary =
  ["http://localhost:8000"; "http://localhost:8010"; "http://127.0.0.1:8010"].
Proof. reflexivity. Qed.

(** With [http://localhost:8010] active, the order is that host, then the
    primary, then the remaining fallback. *)
Example candidates_active_first :
  attempted (apiRequest None nat net_all_fail status_path None "http://localhost:8010") =
  ["http://localhost:8010"; "http://localhost:8000"; "http://127.0.0.1:8010"].
Proof. reflexivity. Qed.

(** A primary base URL equal to a fallback is configured twice and tried
    once. *)
Example candidates_configured_twice :
  attempted (apiRequest (Some "http://localhost:8010"%string) nat net_all_fail
               status_path None "http://localhost:8010") =
  ["http://localhost:8010"; "http://127.0.0.1:8010"].
Proof. reflexivity. Qed.

(** C1. The primary host answers 500 and the first fallback answers 200:
    the call does not fail with the 500; the [throw] is caught by the
    [catch] of the same iteration, the fallback is requested, and the call
    is fulfilled with the fallback's body. *)
Theorem apiRequest_500_then_next_candidate :
  let r := apiRequest None nat net_500_then_200 status_path None primary in
  outcome r = Fulfilled 7%nat /\
  attempted r = ["http://localhost:8000"; "http://localhost:8010"] /\
  activeApiBaseUrl r = "http://localhost:8010".
Proof. repeat split. Qed.

Lemma apiRequest_fallback_success_witness :
  let r := apiRequest None nat net_404_down_200 status_path None primary in
  outcome r = Fulfilled 7%nat /\ activeApiBaseUrl r = "http://127.0.0.1:8010".
Proof.
  apply (apiRequest_fallback_success None net_404_down_200 status_path None primary
           "http://localhost:8000" ["http://localhost:8010"] "http://127.0.0.1:8010" []
           {| status := 404; text := Fulfilled "";
              json := Rejected (ThrownError {| message := "Unexpected token" |}) |}
           {| status := 200; text := Fulfilled "7"; json := Fulfilled 7%nat |}).
  - reflexivity.
  - reflexivity.
  - reflexivity.
  - intros b Hb. apply list_elem_of_singleton in Hb. rewrite Hb. reflexivity.
  - reflexivity.
  - reflexivity.
Defined.

Lemma apiRequest_all_fail_witness :
  let r := apiRequest None nat net_all_fail status_path None primary in
  outcome r = Rejected (ThrownError {| message := "Failed to fetch" |}) /\
  attempted r = ["http://localhost:8000"; "http://localhost:8010"; "http://127.0.0.1:8010"] /\
  activeApiBaseUrl r = primary.
Proof.
  destruct (apiRequest_all_fail None net_all_fail status_path None primary)
    as (Ho & _ & Ha & Hb).
  - rewrite default_candidates. intros b Hb.
    rewrite !elem_of_cons, elem_of_nil in Hb.
    destruct Hb as [->|[->|[->|[]]]].
    + left; reflexivity.
    + left; reflexivity.
    + right; reflexivity.
  - intros r. split; [exact Ho | split; [exact Ha | exact Hb]].
Defined.


End ApiRequestExamples.

(** * Properties of [mapDecisionForUi] *)

Section RoundingProperties.
Import JsNumber.

Lemma is_binary64_digits s m e :
  is_binary64 (S754_finite s m e) -> Z.pos (digits2_pos m) <= 53.
Proof.
  unfold is_binary64, valid_binary, bounded, canonical_mantissa.
  intros [H _]%andb_prop. apply Z.eqb_eq in H.
  unfold fexp, SpecFloat.emin, prec, emax in H. lia.
Qed.

(** The Number value of an integer below 2^53 is that integer. *)
Lemma of_Z_positive p :
  Z.pos (digits2_pos p) <= 53 ->
  exists m e, of_Z (Z.pos p) = S754_finite false m e /\
              integer_value (of_Z (Z.pos p)) = Some (Z.pos p).
Proof.
  intros Hd. unfold of_Z, binary_normalize.
  destruct (binary_round_integer false p Hd) as (m & e & -> & He & Hm).
  exists m, e. split; [reflexivity|]. unfold integer_value.
  destruct (0 <=? e) eqn:H0.
  - apply Z.leb_le in H0. assert (e = 0) as -> by lia. simpl in Hm. f_equal. lia.
  - rewrite Hm, Z_mod_mult, Z.eqb_refl, Z_div_mult by lia. reflexivity.
Qed.

Lemma of_Z_negative p :
  Z.pos (digits2_pos p) <= 53 ->
  exists m e, of_Z (Z.neg p) = S754_finite true m e.
Proof.
  intros Hd. unfold of_Z, binary_normalize.
  destruct (binary_round_integer true p Hd) as (m & e & -> & _). eauto.
Qed.

(** [Math.max(0, Math.round(x))] of a finite binary64 value is +0 or a
    positive integer, and it is +0 when [x] carries a minus sign. *)
Lemma round_then_clamp x :
  is_binary64 x -> isFinite x = true ->
  let r := Math_max zero (Math_round x) in
  (exists n, integer_value r = Some n /\ 0 <= n) /\
  sign_bit r = false /\
  (sign_bit x = true -> r = zero).
Proof.
  intros Hv Hfin. destruct x as [s| | |s m e]; try discriminate.
  - simpl. repeat split; eauto with lia.
  - apply is_binary64_digits in Hv. unfold Math_round.
    destruct (0 <=? e) eqn:He.
    + destruct s; cbn.
      * repeat split; eauto with lia.
      * rewrite He. repeat split; [|discriminate].
        exists (Z.pos m * 2 ^ e). split; [reflexivity | lia].
    + apply Z.leb_gt in He.
      set (d := 2 ^ (- e)).
      assert (Hd : 2 <= d).
      { unfold d. change 2 with (2 ^ 1) at 1. apply Z.pow_le_mono_r; lia. }
      cbv zeta.
      destruct s.
      * (* x < 0 *)
        assert (Hn : - Z.pos m <= (2 * Z.neg m + d) / (2 * d) <= 0).
        { split.
          - apply Z.div_le_lower_bound; [lia|]. nia.
          - assert ((2 * Z.neg m + d) / (2 * d) < 1); [|lia].
            apply Z.div_lt_upper_bound; lia. }
        destruct ((2 * Z.neg m + d) / (2 * d)) as [|n|n] eqn:Hq; [|lia|].
        -- simpl. repeat split; eauto with lia.
        -- assert (Hdn : Z.pos (digits2_pos n) <= 53).
           { etransitivity; [apply digits2_pos_le|exact Hv]. lia. }
           destruct (of_Z_negative n Hdn) as (m' & e' & ->).
           simpl. repeat split; eauto with lia.
      * (* x > 0 *)
        assert (Hn : 0 <= (2 * Z.pos m + d) / (2 * d) <= Z.pos m).
        { split.
          - apply Z.div_pos; lia.
          - apply Z.div_le_upper_bound; [lia|]. nia. }
        destruct ((2 * Z.pos m + d) / (2 * d)) as [|n|n] eqn:Hq; [| |lia].
        -- simpl. repeat split; eauto with lia.
        -- assert (Hdn : Z.pos (digits2_pos n) <= 53).
           { etransitivity; [apply digits2_pos_le|exact Hv]. lia. }
           destruct (of_Z_positive n Hdn) as (m' & e' & Heq & Hint).
           rewrite Heq in Hint |- *. cbn [Z.eqb].
           unfold Math_max. cbn [SFcompare zero sign_bit].
           repeat split; [|discriminate]. exists (Z.pos n). split; [exact Hint | lia].
Qed.

End RoundingProperties.

Section DecisionClaims.
Import JsNumber Js Api DecisionVocabulary.

Context (StringToNumber : string -> number)
        (Date_parse : string -> option Z)
        (toLocaleTimeString : Z -> string).

Local Abbreviation toSafeNumber := (Api.toSafeNumber StringToNumber).
Local Abbreviation mapDecisionForUi :=
  (Api.mapDecisionForUi StringToNumber Date_parse toLocaleTimeString).

(** An absent property reads as 0. *)
Lemma toSafeNumber_undefined : toSafeNumber Undefined zero = zero.
Proof. reflexivity. Qed.

(** [toSafeNumber] gives a finite number, and a binary64 value when it is
    given one. *)
Lemma toSafeNumber_optional x :
  (forall v, x = Some v -> is_binary64 v) ->
  is_binary64 (toSafeNumber (of_optional x) zero) /\
  isFinite (toSafeNumber (of_optional x) zero) = true /\
  (sign_bit (toSafeNumber (of_optional x) zero) = true ->
   exists v, x = Some v /\ sign_bit v = true).
Proof.
  intros Hv. destruct x as [v|]; [|repeat split; discriminate].
  unfold Api.toSafeNumber. cbn [of_optional Number].
  destruct (isFinite v) eqn:Hfin.
  - repeat split; [apply Hv; reflexivity | exact Hfin | eauto].
  - repeat split; discriminate.
Qed.

(** C6. The example payload of the specification is normalized to
    [rlAction = "reduce_load"], [reduction = 13], [costSaved = 3.46],
    [stabilityScore = 0.91], and the time of day of its timestamp in the
    locale format (the timestamp being one that [Date] parses). *)
Theorem mapDecisionForUi_reduce_load_example now parsedDate :
  Date_parse "2024-01-01T10:00:00Z" = Some parsedDate ->
  mapDecisionForUi Examples.reduce_load_response now =
  {| UiDecision.rlAction := "reduce_load";
     UiDecision.reduction := of_Z 13;
     UiDecision.costSaved := decimal false 346 2;
     UiDecision.stabilityScore := decimal false 91 2;
     UiDecision.timestamp := toLocaleTimeString parsedDate |}.
Proof.
  intros Hdate. unfold Api.mapDecisionForUi, Api.toDisplayTime.
  cbn [Examples.reduce_load_response GenerateDecisionResponse.decision
       BackendDecisionPayload.timestamp BackendDecisionPayload.rl_action
       BackendDecisionPayload.optimized_decision default from_option id].
  rewrite Hdate. rewrite bool_decide_eq_false_2 by discriminate.
  f_equal; vm_compute; reflexivity.
Qed.

(** C7. When [optimized_decision] is absent, or the whole [decision] is,
    the normalized record has [reduction], [costSaved] and [stabilityScore]
    all equal to 0; [mapDecisionForUi] has no path that throws. *)
Theorem mapDecisionForUi_missing_optimized_decision response now :
  GenerateDecisionResponse.decision response = None \/
  (exists decision,
      GenerateDecisionResponse.decision response = Some decision /\
      BackendDecisionPayload.optimized_decision decision = None) ->
  UiDecision.reduction (mapDecisionForUi response now) = zero /\
  UiDecision.costSaved (mapDecisionForUi response now) = zero /\
  UiDecision.stabilityScore (mapDecisionForUi response now) = zero.
Proof.
  unfold Api.mapDecisionForUi.
  intros [->|(decision & -> & Hopt)]; cbn [default from_option id UiDecision.reduction
    UiDecision.costSaved UiDecision.stabilityScore BackendDecisionPayload.optimized_decision
    BackendDecisionPayload.empty]; [|rewrite Hopt]; repeat split.
Qed.

(** C10. For a payload whose [recommended_reduction], when present, is a
    binary64 value, [reduction] is a non-negative integer (and not -0);
    a [recommended_reduction] with a minus sign, such as -5.2, gives 0. *)
Theorem mapDecisionForUi_reduction_non_negative_integer response now :
  (forall x, recommended_reduction_of response = Some x -> is_binary64 x) ->
  let reduction := UiDecision.reduction (mapDecisionForUi response now) in
  (exists n, integer_value reduction = Some n /\ 0 <= n) /\
  sign_bit reduction = false /\
  (forall x, recommended_reduction_of response = Some x -> sign_bit x = true ->
             reduction = zero).
Proof.
  intros Hv. unfold Api.mapDecisionForUi. cbn [UiDecision.reduction].
  set (opt := default OptimizedDecision.empty _).
  assert (Hopt : recommended_reduction_of response =
                 OptimizedDecision.recommended_reduction opt).
  { unfold opt, recommended_reduction_of, optimized_decision_of.
    destruct (GenerateDecisionResponse.decision response) as [d|]; [|reflexivity].
    cbn. destruct (BackendDecisionPayload.optimized_decision d); reflexivity. }
  rewrite Hopt in Hv |- *. clearbody opt.
  destruct (toSafeNumber_optional (OptimizedDecision.recommended_reduction opt) Hv)
    as (Hb & Hfin & Hsign).
  destruct (round_then_clamp _ Hb Hfin) as (Hint & Hpos & Hneg).
  split; [exact Hint|]. split; [exact Hpos|].
  intros x Hx Hs. clear Hsign. revert Hneg. rewrite Hx. cbn [of_optional].
  unfold Api.toSafeNumber. cbn [Number].
  destruct (isFinite x) eqn:Hfx; [auto | reflexivity].
Qed.

End DecisionClaims.

Section DecisionExamples.
Import JsNumber Js Api DecisionVocabulary Examples.

Local Abbreviation example_mapDecisionForUi :=
  (mapDecisionForUi example_StringToNumber example_Date_parse example_toLocaleTimeString).

Lemma mapDecisionForUi_reduce_load_example_witness :
  example_mapDecisionForUi reduce_load_response 0 =
  {| UiDecision.rlAction := "reduce_load";
     UiDecision.reduction := of_Z 13;
     UiDecision.costSaved := decimal false 346 2;
     UiDecision.stabilityScore := decimal false 91 2;
     UiDecision.timestamp := "15:30:00" |}.
Proof.
  apply (mapDecisionForUi_reduce_load_example
           example_StringToNumber example_Date_parse example_toLocaleTimeString
           0 1704103200000).
  reflexivity.
Defined.

Lemma mapDecisionForUi_missing_optimized_decision_witness :
  UiDecision.reduction (example_mapDecisionForUi bare_decision_response 0) = zero /\
  UiDecision.costSaved (example_mapDecisionForUi bare_decision_response 0) = zero /\
  UiDecision.stabilityScore (example_mapDecisionForUi bare_decision_response 0) = zero.
Proof.
  apply (mapDecisionForUi_missing_optimized_decision
           example_StringToNumber example_Date_parse example_toLocaleTimeString
           bare_decision_response 0).
  right. eexists. split; reflexivity.
Defined.

Lemma mapDecisionForUi_reduction_non_negative_integer_witness :
  UiDecision.reduction (example_mapDecisionForUi negative_reduction_response 0) = zero.
Proof.
  apply (mapDecisionForUi_reduction_non_negative_integer
           example_StringToNumber example_Date_parse example_toLocaleTimeString
           negative_reduction_response 0) with (x := decimal true 52 1).
  - intros x Hx. vm_compute in Hx. injection Hx as <-. reflexivity.
  - reflexivity.
  - reflexivity.
Defined.

(** The same value -5.2 rounds to -5 before the clamp. *)
Example round_negative : Math_round (decimal true 52 1) = of_Z (-5).
Proof. reflexivity. Qed.

End DecisionExamples.

(** * Properties of [fetchLiveData] *)

Section PollClaims.
Import JsNumber Js Page.

Context (StringToNumber : string -> number)
        (Date_parse : string -> option Z)
        (toLocaleTimeString : Z -> string).

Local Abbreviation fetchLiveData_settle :=
  (Page.fetchLiveData_settle StringToNumber Date_parse toLocaleTimeString).
Local Abbreviation run := (Page.run StringToNumber Date_parse toLocaleTimeString).

(** An unforced invocation that finds the lock held returns at once: the
    state is untouched and no request is issued. *)
Lemma fetchLiveData_unforced_while_locked options s :
  requestLock s = true -> is_forced options = false ->
  fetchLiveData_invoke options s = s.
Proof. intros Hl Hf. unfold fetchLiveData_invoke. rewrite Hl, Hf. reflexivity. Qed.

(** An invocation that passes the guard (the lock is free, or it is
    forced) takes the lock and issues one request. *)
Lemma fetchLiveData_passes_guard options s :
  requestLock s = false \/ is_forced options = true ->
  let s' := fetchLiveData_invoke options s in
  requestLock s' = true /\ isScanning s' = true /\
  issued s' = S (issued s) /\
  inFlight s' = inFlight s ++ [{| call := issued s; forced := is_forced options |}].
Proof.
  intros H. unfold fetchLiveData_invoke.
  destruct H as [-> | ->]; [|rewrite andb_false_r]; repeat split.
Qed.

(** C9. An invocation that gets past the guard holds the lock while its
    request is in flight; whenever its request settles, fulfilled or
    rejected, and whatever state the component is in by then, it ends with
    the lock cleared and the indicator off, and is no longer in flight. *)
Theorem fetchLiveData_releases_lock options s :
  requestLock s = false \/ is_forced options = true ->
  let id := issued s in
  let s1 := fetchLiveData_invoke options s in
  requestLock s1 = true /\
  id ∈ call <$> inFlight s1 /\
  forall s2 result now,
    id ∈ call <$> inFlight s2 ->
    let s3 := fetchLiveData_settle id result now s2 in
    requestLock s3 = false /\ isScanning s3 = false /\ id ∉ call <$> inFlight s3.
Proof.
  intros Hguard id s1.
  destruct (fetchLiveData_passes_guard options s Hguard) as (Hl & _ & _ & Hin).
  split; [exact Hl|]. split.
  - fold s1 in Hin. rewrite Hin, fmap_app. apply elem_of_app. right. simpl. left.
  - intros s2 result now Hid. unfold Page.fetchLiveData_settle.
    rewrite bool_decide_eq_true_2 by exact Hid.
    unfold fetchLiveData_finally. cbn [requestLock isScanning inFlight].
    repeat split.
    rewrite list_elem_of_fmap. intros (i & Hi & Hmem).
    apply list_elem_of_filter in Hmem as [Hne _]. congruence.
Qed.

End PollClaims.

Section PollExamples.
Import JsNumber Js Page Examples.

Local Abbreviation run :=
  (Page.run example_StringToNumber example_Date_parse example_toLocaleTimeString).

Lemma fetchLiveData_releases_lock_witness :
  let s1 := fetchLiveData_invoke None initial in
  requestLock s1 = true /\
  0%nat ∈ call <$> inFlight s1 /\
  forall s2 result now,
    0%nat ∈ call <$> inFlight s2 ->
    let s3 := fetchLiveData_settle example_StringToNumber example_Date_parse
                example_toLocaleTimeString 0 result now s2 in
    requestLock s3 = false /\ isScanning s3 = false /\ 0%nat ∉ call <$> inFlight s3.
Proof.
  apply (fetchLiveData_releases_lock
           example_StringToNumber example_Date_parse example_toLocaleTimeString
           None initial).
  left. reflexivity.
Defined.

(** A poll is in flight and a second timer tick arrives: nothing is
    issued. *)
Example overlapping_polls :
  run [Invoke None; Invoke None] initial = run [Invoke None] initial.
Proof. reflexivity. Qed.

(** C8. A timer poll is in flight (request 0); a forced fetch starts
    (request 1) and settles first, and its [finally] clears the lock that
    the poll still relies on; the next timer poll then passes the guard
    (request 2).  Requests 0 and 2 are in flight together and neither was
    forced. *)
Theorem fetchLiveData_two_unforced_in_flight :
  let s := run [Invoke None;
                Invoke (Some {| force := Some true |});
                Settle 1 (Fulfilled example_dashboard) 1704103200000;
                Invoke None] initial in
  inFlight s = [{| call := 0; forced := false |}; {| call := 2; forced := false |}] /\
  issued s = 3%nat.
Proof. split; reflexivity. Qed.

End PollExamples.

(** * Further properties of [frontend/lib/api.ts] *)

Section RequestHeaders.
Import Js Api.

Lemma Headers_has_app h1 h2 name :
  Headers_has (h1 ++ h2) name = Headers_has h1 name || Headers_has h2 name.
Proof. unfold Headers_has. apply existsb_app. Qed.

Lemma Headers_set_absent h name value :
  Headers_has h name = false -> Headers_set h name value = h ++ [(name, value)].
Proof.
  induction h as [|kv rest IH]; simpl; [reflexivity|].
  intros [Hkv Hrest]%orb_false_elim. rewrite Hkv. f_equal. auto.
Qed.

(** The options that reach [fetch] always name a content type: the
    caller's own if there is one (under any capitalisation of the header
    name), else [application/json] appended to the caller's headers.  The
    method and body are the caller's. *)
Theorem apiRequest_content_type_default init :
  let requestInit := with_content_type init in
  let given := default [] (init ≫= headers) in
  method requestInit = init ≫= method /\
  body requestInit = init ≫= body /\
  exists sent,
    headers requestInit = Some sent /\
    Headers_has sent "content-type" = true /\
    (Headers_has given "Content-Type" = true -> sent = given) /\
    (Headers_has given "Content-Type" = false ->
     sent = given ++ [("Content-Type", "application/json")]).
Proof.
  intros requestInit given. split; [reflexivity|]. split; [reflexivity|].
  unfold requestInit, with_content_type. fold given. cbn [headers].
  destruct (Headers_has given "Content-Type") eqn:Hhas; cbn [negb].
  - exists given. repeat split; [exact Hhas | discriminate].
  - exists (Headers_set given "Content-Type" "application/json").
    rewrite (Headers_set_absent _ _ _ Hhas). repeat split; [|discriminate].
    rewrite Headers_has_app. apply orb_true_r.
Qed.

End RequestHeaders.

Section ActiveBaseInvariant.
Import Js Api ApiVocabulary.

Lemma Array_from_Set_length items :
  forall seen, (length (Array_from_Set seen items) <= length items)%nat.
Proof.
  induction items as [|x rest IH]; intros seen; simpl; [lia|].
  destruct (decide (x ∈ seen)); simpl;
    [specialize (IH seen) | specialize (IH ({[x]} ∪ seen))]; lia.
Qed.

Lemma PRIMARY_API_BASE_URL_configured env :
  PRIMARY_API_BASE_URL env ∈ API_FALLBACK_CANDIDATES env.
Proof.
  unfold API_FALLBACK_CANDIDATES.
  destruct (Array_from_Set_spec
              [PRIMARY_API_BASE_URL env; "http://localhost:8010"; "http://127.0.0.1:8010"] ∅)
    as [_ Hiff].
  apply Hiff. set_solver.
Qed.

Lemma candidateBases_configured env active :
  active ∈ API_FALLBACK_CANDIDATES env ->
  forall b, b ∈ candidateBases env active -> b ∈ API_FALLBACK_CANDIDATES env.
Proof.
  intros Ha b. unfold candidateBases. rewrite elem_of_cons, list_elem_of_filter.
  intros [->|[_ Hb]]; assumption.
Qed.

Lemma candidateBases_length env active :
  active ∈ API_FALLBACK_CANDIDATES env ->
  (length (candidateBases env active) <= 3)%nat.
Proof.
  intros Ha.
  assert (H : candidateBases env active ⊆+ API_FALLBACK_CANDIDATES env).
  { apply NoDup_submseteq; [apply candidateBases_NoDup|].
    apply candidateBases_configured, Ha. }
  apply submseteq_length in H.
  pose proof (Array_from_Set_length
                [PRIMARY_API_BASE_URL env; "http://localhost:8010"; "http://127.0.0.1:8010"] ∅).
  unfold API_FALLBACK_CANDIDATES in H. simpl in *. lia.
Qed.

(** The active base URL starts as the primary one, which is a configured
    candidate; from a configured candidate, a call only requests configured
    candidates, at most three of them, and leaves a configured candidate
    active.  So the active base URL is a configured candidate for good. *)
Theorem apiRequest_active_stays_configured env T
        (fetch : string -> RequestInit -> Settled (Response T)) path init active :
  active ∈ API_FALLBACK_CANDIDATES env ->
  let r := apiRequest env T fetch path init active in
  PRIMARY_API_BASE_URL env ∈ API_FALLBACK_CANDIDATES env /\
  activeApiBaseUrl r ∈ API_FALLBACK_CANDIDATES env /\
  (forall b, b ∈ attempted r -> b ∈ API_FALLBACK_CANDIDATES env) /\
  (length (attempted r) <= 3)%nat.
Proof.
  intros Ha r. split; [apply PRIMARY_API_BASE_URL_configured|].
  split; [|split].
  - unfold r, apiRequest.
    rewrite sweep_active by (apply candidateBases_NoDup || set_solver).
    destruct (filter _ _) as [|c l] eqn:Hf; [exact Ha|]. simpl.
    apply (candidateBases_configured env active Ha).
    assert (Hc : c ∈ filter
                   (fun b => succeeds fetch path (with_content_type init) b = true)
                   (candidateBases env active)) by (rewrite Hf; left).
    apply list_elem_of_filter in Hc. tauto.
  - intros b Hb. apply (candidateBases_configured env active Ha).
    apply (sweep_attempted_fresh fetch path (with_content_type init)
             (candidateBases env active) ∅ None active). exact Hb.
  - etransitivity; [|apply (candidateBases_length env active Ha)].
    apply prefix_length, sweep_attempted_prefix; [apply candidateBases_NoDup | set_solver].
Qed.

Lemma apiRequest_active_stays_configured_witness :
  let r := apiRequest None nat Examples.net_404_down_200 "/autonomous-ai/status" None
             "http://localhost:8000" in
  PRIMARY_API_BASE_URL None ∈ API_FALLBACK_CANDIDATES None /\
  activeApiBaseUrl r ∈ API_FALLBACK_CANDIDATES None /\
  (forall b, b ∈ attempted r -> b ∈ API_FALLBACK_CANDIDATES None) /\
  (length (attempted r) <= 3)%nat.
Proof.
  apply (apiRequest_active_stays_configured None nat Examples.net_404_down_200
           "/autonomous-ai/status" None "http://localhost:8000").
  vm_compute. left.
Defined.

End ActiveBaseInvariant.

Section ExportProperties.
Import Js Api ApiVocabulary ApiEndpoints EndpointVocabulary.

Context (env : option string) {B : Type} (fetch : string -> Settled (BlobResponse B)).

Lemma export_sweep_as_sweep path requestInit candidates :
  forall triedBases lastError active,
    export_sweep B fetch path candidates triedBases lastError active =
    sweep B (as_json_network fetch) path requestInit candidates triedBases lastError active.
Proof.
  induction candidates as [|b rest IH]; intros tried lastError active; simpl; [reflexivity|].
  destruct (decide (b ∈ tried)); [apply IH|].
  f_equal. unfold export_try_block, try_block, as_json_network.
  destruct (fetch (b +:+ path)) as [r|reason]; [|apply IH].
  change (ok (as_json_response r)) with (blob_ok r).
  destruct (blob_ok r); cbn [negb]; [reflexivity|].
  cbn [as_json_response text status].
  destruct (blob_text r) as [message|reason]; [|apply IH].
  destruct (blob_status r =? 404)%N; apply IH.
Qed.

(** [exportAiModelWeights] fails over exactly as [apiRequest] does: on a
    network that answers [blob()] the way it would answer [json()], the
    two settle alike, request the same base URLs in the same order and
    leave the same base URL active, whatever options [apiRequest] is
    given. *)
Theorem exportAiModelWeights_as_apiRequest model init active :
  exportAiModelWeights env B fetch model active =
  apiRequest env B (as_json_network fetch) (exportAiModelWeights_path model) init active.
Proof. apply export_sweep_as_sweep. Qed.

Lemma export_succeeds_as_succeeds path requestInit b :
  succeeds (as_json_network fetch) path requestInit b = export_succeeds fetch path b.
Proof.
  unfold succeeds, export_succeeds, as_json_network.
  destruct (fetch (b +:+ path)); reflexivity.
Qed.

(** The base URLs requested up to a first success are the candidates up
    to and including it. *)
Lemma sweep_first_success_attempted {T} (fetch' : string -> RequestInit -> Settled (Response T))
      path requestInit pre c post :
  forall triedBases lastError active,
    NoDup (pre ++ c :: post) ->
    (forall b, b ∈ pre ++ c :: post -> b ∉ triedBases) ->
    (forall b, b ∈ pre -> succeeds fetch' path requestInit b = false) ->
    succeeds fetch' path requestInit c = true ->
    attempted (sweep T fetch' path requestInit (pre ++ c :: post) triedBases lastError active) =
    pre ++ [c].
Proof.
  induction pre as [|b pre IH]; intros tried lastError active Hnd Hfresh Hfail Hc; simpl.
  - destruct (decide (c ∈ tried)) as [Hin|_]; [exfalso; apply (Hfresh c); set_solver|].
    apply succeeds_Return in Hc as [r ->]. reflexivity.
  - simpl in Hnd. apply NoDup_cons in Hnd as [Hb Hnd].
    destruct (decide (b ∈ tried)) as [Hin|_]; [exfalso; apply (Hfresh b); set_solver|].
    assert (Hrec : forall le,
               attempted (sweep T fetch' path requestInit (pre ++ c :: post)
                            ({[b]} ∪ tried) le active) = pre ++ [c]).
    { intros le. apply IH; [exact Hnd | | intros; apply Hfail; set_solver | exact Hc].
      intros d Hd. specialize (Hfresh d). set_solver. }
    destruct (try_block T fetch' path requestInit b) as [e|resp|reason] eqn:Hbk; simpl;
      [rewrite Hrec; reflexivity | | rewrite Hrec; reflexivity].
    assert (succeeds fetch' path requestInit b = true) by (apply succeeds_Return; eauto).
    rewrite Hfail in H by set_solver. discriminate.
Qed.

(** When [c] is the first candidate to answer the export with a successful
    response (the earlier ones failing in any way, a 500 included), the
    export requests the candidates up to [c] and no further, settles as
    that response's [blob()] does, and makes [c] the active base URL, from
    which the next [apiRequest] starts. *)
Theorem exportAiModelWeights_first_success model active pre c post response :
  let path := exportAiModelWeights_path model in
  let r := exportAiModelWeights env B fetch model active in
  candidateBases env active = pre ++ c :: post ->
  (forall b, b ∈ pre -> export_succeeds fetch path b = false) ->
  fetch (c +:+ path) = Fulfilled response ->
  blob_ok response = true ->
  outcome r = blob response /\
  attempted r = pre ++ [c] /\
  activeApiBaseUrl r = c /\
  forall T (fetch' : string -> RequestInit -> Settled (Response T)) path' init',
    head (attempted (apiRequest env T fetch' path' init' (activeApiBaseUrl r))) = Some c.
Proof.
  intros path r Hcands Hpre Hf Hok.
  assert (Hr : r = apiRequest env B (as_json_network fetch) path None active)
    by apply export_sweep_as_sweep.
  assert (Hpre' : forall b, b ∈ pre ->
                    succeeds (as_json_network fetch) path (with_content_type None) b = false).
  { intros b Hb. rewrite export_succeeds_as_succeeds. auto. }
  assert (Hfj : as_json_network fetch (c +:+ path) (with_content_type None) =
                Fulfilled (as_json_response response)).
  { unfold as_json_network. rewrite Hf. reflexivity. }
  destruct (sweep_first_success (as_json_network fetch) path (with_content_type None)
              pre c post (as_json_response response) ∅ None active Hpre')
    as [Hout Hact]; [set_solver | exact Hfj | exact Hok |].
  assert (Hactive : activeApiBaseUrl r = c).
  { rewrite Hr. unfold apiRequest. rewrite Hcands. exact Hact. }
  split; [|split; [|split]].
  - rewrite Hr. unfold apiRequest. rewrite Hcands. exact Hout.
  - rewrite Hr. unfold apiRequest. rewrite Hcands.
    apply sweep_first_success_attempted;
      [rewrite <- Hcands; apply candidateBases_NoDup | set_solver | exact Hpre' |].
    unfold succeeds. rewrite Hfj. exact Hok.
  - exact Hactive.
  - intros T fetch' path' init'. rewrite Hactive.
    unfold apiRequest, candidateBases. cbn [sweep].
    destruct (decide (c ∈ (∅ : gset string))) as [Hin|_]; [set_solver|].
    reflexivity.
Qed.

End ExportProperties.

Section ExportExamples.
Import Js Api ApiVocabulary ApiEndpoints EndpointVocabulary EndpointExamples.

Lemma exportAiModelWeights_first_success_witness :
  let r := exportAiModelWeights None string net_export (Some anomaly) "http://localhost:8000" in
  outcome r = Fulfilled "weights"%string /\
  attempted r = ["http://localhost:8000"; "http://localhost:8010"] /\
  activeApiBaseUrl r = "http://localhost:8010" /\
  forall T (fetch' : string -> RequestInit -> Settled (Response T)) path' init',
    head (attempted (apiRequest None T fetch' path' init' (activeApiBaseUrl r))) =
    Some "http://localhost:8010"%string.
Proof.
  apply (exportAiModelWeights_first_success None net_export (Some anomaly)
           "http://localhost:8000" ["http://localhost:8000"] "http://localhost:8010"
           ["http://127.0.0.1:8010"]
           {| blob_status := 200; blob_text := Fulfilled "weights"%string;
              blob := Fulfilled "weights"%string |}).
  - reflexivity.
  - intros b Hb. apply list_elem_of_singleton in Hb. rewrite Hb. reflexivity.
  - reflexivity.
  - reflexivity.
Defined.

End ExportExamples.

(** * [getAiModelLogs] *)

Section LogsProperties.
Import JsNumber Js Api ApiEndpoints.

(** Positive finite numbers compare by exponent, then by mantissa. *)
Lemma SFcompare_positive m1 e1 m2 e2 :
  SFcompare (S754_finite false m1 e1) (S754_finite false m2 e2) =
  Some match Z.compare e1 e2 with
       | Lt => Lt
       | Gt => Gt
       | Eq => Pos.compare m1 m2
       end.
Proof. reflexivity. Qed.

Lemma SFcompare_positive_Lt m1 e1 m2 e2 :
  SFcompare (S754_finite false m1 e1) (S754_finite false m2 e2) = Some Lt <->
  e1 < e2 \/ (e1 = e2 /\ (m1 < m2)%positive).
Proof.
  rewrite SFcompare_positive.
  destruct (Z.compare_spec e1 e2) as [->|?|?].
  - rewrite <- Pos.compare_lt_iff. split; [intros [= ->]; auto | intros [?|[_ ->]]; [lia|reflexivity]].
  - split; [auto | reflexivity].
  - split; [discriminate | lia].
Qed.

Lemma SFcompare_positive_Eq m1 e1 m2 e2 :
  SFcompare (S754_finite false m1 e1) (S754_finite false m2 e2) = Some Eq <->
  e1 = e2 /\ m1 = m2.
Proof.
  rewrite SFcompare_positive.
  destruct (Z.compare_spec e1 e2) as [->|?|?].
  - rewrite <- Pos.compare_eq_iff. split; [intros [= ->]; auto | intros [_ ->]; reflexivity].
  - split; [discriminate | lia].
  - split; [discriminate | lia].
Qed.

Lemma SFcompare_positive_Gt m1 e1 m2 e2 :
  SFcompare (S754_finite false m1 e1) (S754_finite false m2 e2) = Some Gt <->
  e2 < e1 \/ (e1 = e2 /\ (m2 < m1)%positive).
Proof.
  rewrite SFcompare_positive.
  destruct (Z.compare_spec e1 e2) as [->|?|?].
  - rewrite <- Pos.compare_gt_iff. split; [intros [= ->]; auto | intros [?|[_ ->]]; [lia|reflexivity]].
  - split; [discriminate | lia].
  - split; [auto | reflexivity].
Qed.

Section Clamp.
Variables (ml mh : positive) (el eh : Z).
Local Abbreviation lo := (S754_finite false ml el).
Local Abbreviation hi := (S754_finite false mh eh).
Hypothesis Horder : SFcompare lo hi = Some Lt.

Lemma clamp_below x :
  SFleb x lo = true -> Math_max lo (Math_min x hi) = lo.
Proof.
  apply SFcompare_positive_Lt in Horder.
  unfold SFleb, Math_max, Math_min.
  destruct x as [s|s| |s m e]; try destruct s; try discriminate; try (intros _; reflexivity).
  destruct (SFcompare (S754_finite false m e) lo) as [[]|] eqn:Hx; try discriminate; intros _.
  - apply SFcompare_positive_Eq in Hx as [-> ->].
    replace (SFcompare lo hi) with (Some Lt) by (symmetry; apply SFcompare_positive_Lt; exact Horder).
    replace (SFcompare lo lo) with (Some Eq)
      by (symmetry; apply SFcompare_positive_Eq; auto).
    reflexivity.
  - apply SFcompare_positive_Lt in Hx.
    replace (SFcompare (S754_finite false m e) hi) with (Some Lt)
      by (symmetry; apply SFcompare_positive_Lt; lia).
    replace (SFcompare lo (S754_finite false m e)) with (Some Gt)
      by (symmetry; apply SFcompare_positive_Gt; lia).
    reflexivity.
Qed.

Lemma clamp_above x :
  SFleb hi x = true -> Math_max lo (Math_min x hi) = hi.
Proof.
  pose proof Horder as Hlt. apply SFcompare_positive_Lt in Hlt.
  unfold SFleb, Math_max, Math_min.
  destruct x as [s|s| |s m e]; try destruct s; try discriminate.
  - intros _. change (SFcompare (S754_infinity false) hi) with (Some Gt).
    cbv iota. rewrite Horder. reflexivity.
  - destruct (SFcompare hi (S754_finite false m e)) as [[]|] eqn:Hx; try discriminate; intros _.
    + apply SFcompare_positive_Eq in Hx as [<- <-].
      replace (SFcompare hi hi) with (Some Eq)
        by (symmetry; apply SFcompare_positive_Eq; auto).
      cbv iota. rewrite Horder. reflexivity.
    + apply SFcompare_positive_Lt in Hx.
      replace (SFcompare (S754_finite false m e) hi) with (Some Gt)
        by (symmetry; apply SFcompare_positive_Gt; lia).
      cbv iota. rewrite Horder. reflexivity.
Qed.

Lemma clamp_within x :
  SFleb lo x = true -> SFleb x hi = true -> Math_max lo (Math_min x hi) = x.
Proof.
  unfold SFleb, Math_max, Math_min.
  destruct x as [s|s| |s m e]; try destruct s; try discriminate.
  destruct (SFcompare lo (S754_finite false m e)) as [[]|] eqn:Hlo; try discriminate; intros _;
    destruct (SFcompare (S754_finite false m e) hi) as [[]|] eqn:Hhi; try discriminate; intros _;
    cbv iota; rewrite ?Hlo; try reflexivity.
  - apply SFcompare_positive_Eq in Hlo as [<- <-]. reflexivity.
  - apply SFcompare_positive_Eq in Hlo as [<- <-]. reflexivity.
Qed.

Lemma clamp_range x :
  x <> NaN ->
  SFleb lo (Math_max lo (Math_min x hi)) = true /\
  SFleb (Math_max lo (Math_min x hi)) hi = true.
Proof.
  intros Hnan.
  assert (Hll : SFleb lo lo = true).
  { unfold SFleb. replace (SFcompare lo lo) with (Some Eq)
      by (symmetry; apply SFcompare_positive_Eq; auto). reflexivity. }
  assert (Hhh : SFleb hi hi = true).
  { unfold SFleb. replace (SFcompare hi hi) with (Some Eq)
      by (symmetry; apply SFcompare_positive_Eq; auto). reflexivity. }
  assert (Hlh : SFleb lo hi = true) by (unfold SFleb; rewrite Horder; reflexivity).
  destruct (SFleb x lo) eqn:H1; [rewrite (clamp_below x H1); auto|].
  destruct (SFleb hi x) eqn:H2; [rewrite (clamp_above x H2); auto|].
  assert (H3 : SFleb lo x = true /\ SFleb x hi = true).
  { revert H1 H2. unfold SFleb.
    destruct x as [s|s| |s m e]; try destruct s;
      try (exfalso; apply Hnan; reflexivity);
      try (intros H; discriminate H); try (intros _ H; discriminate H).
    destruct (SFcompare (S754_finite false m e) lo) as [[]|] eqn:Ha; try discriminate; intros _.
    destruct (SFcompare hi (S754_finite false m e)) as [[]|] eqn:Hb; try discriminate; intros _.
    apply SFcompare_positive_Gt in Ha. apply SFcompare_positive_Gt in Hb.
    replace (SFcompare lo (S754_finite false m e)) with (Some Lt)
      by (symmetry; apply SFcompare_positive_Lt; lia).
    replace (SFcompare (S754_finite false m e) hi) with (Some Lt)
      by (symmetry; apply SFcompare_positive_Lt; lia).
    auto. }
  destruct H3 as [H3 H4]. rewrite (clamp_within x H3 H4). auto.
Qed.
End Clamp.

(** The [lines] parameter that [getAiModelLogs] sends is the argument
    (150 when left out) clamped to the range 20 to 1000: a value up to 20,
    negative or infinite ones included, is sent as 20, a value from 1000 up
    as 1000, and a value in between unchanged.  NaN is the one value that
    is not brought into the range: it is sent as NaN. *)
Theorem getAiModelLogs_lines_clamped Number_toString source lines :
  let sent := clamp_lines (default (of_Z 150) lines) in
  getAiModelLogs_path Number_toString source lines =
    "/monitoring/ai-models/logs?source="
      +:+ AiModelLogSource_string (default application source)
      +:+ "&lines=" +:+ urlencoded (Number_toString sent) /\
  (lines = None -> sent = of_Z 150) /\
  forall x, lines = Some x ->
    (x = NaN -> sent = NaN) /\
    (SFleb x (of_Z 20) = true -> sent = of_Z 20) /\
    (SFleb (of_Z 1000) x = true -> sent = of_Z 1000) /\
    (SFleb (of_Z 20) x = true -> SFleb x (of_Z 1000) = true -> sent = x) /\
    (x <> NaN -> SFleb (of_Z 20) sent = true /\ SFleb sent (of_Z 1000) = true).
Proof.
  intros sent. split; [destruct source as [[]|]; reflexivity|].
  split; [intros ->; reflexivity|].
  intros x ->. subst sent. cbn [default from_option id]. unfold clamp_lines.
  assert (Horder : SFcompare (S754_finite false 5629499534213120 (-48))
                             (S754_finite false 8796093022208000 (-43)) = Some Lt)
    by reflexivity.
  change (of_Z 20) with (S754_finite false 5629499534213120 (-48)).
  change (of_Z 1000) with (S754_finite false 8796093022208000 (-43)).
  split; [intros ->; reflexivity|].
  split; [apply clamp_below; exact Horder|].
  split; [apply clamp_above; exact Horder|].
  split; [apply clamp_within|apply clamp_range; exact Horder].
Qed.


End LogsProperties.

(** * The alerts tab *)

Section AlertsProperties.
Import AlertsTab.

(** Every alert is critical, a warning or informational, so the three
    severity counters add up to the total shown on the first card. *)
Theorem counts_partition s :
  count_all (counts s) =
  (count_critical (counts s) + count_warning (counts s) + count_info (counts s))%nat.
Proof.
  unfold counts. cbn [count_all count_critical count_warning count_info].
  induction (alerts s) as [|a l IH]; [reflexivity|].
  rewrite !filter_cons. cbn [length]. rewrite IH.
  destruct (severity a) eqn:Hs;
    repeat (case_decide; try discriminate; try congruence); cbn [length]; lia.
Qed.

(** The number on a severity card is the number of alerts listed once
    that card's filter is chosen, all of them of that severity; with the
    filter on "all" every alert is listed. *)
Theorem filteredAlerts_matches_counts s :
  filteredAlerts (setFilter all s) = alerts s /\
  length (filteredAlerts (setFilter (only critical) s)) = count_critical (counts s) /\
  length (filteredAlerts (setFilter (only warning) s)) = count_warning (counts s) /\
  length (filteredAlerts (setFilter (only info) s)) = count_info (counts s) /\
  forall sev a, a ∈ filteredAlerts (setFilter (only sev) s) -> severity a = sev.
Proof.
  assert (Hlen : forall sev,
             length (filteredAlerts (setFilter (only sev) s)) =
             length (filter (fun a => severity a = sev) (alerts s))).
  { intros sev. unfold filteredAlerts, setFilter. cbn [alerts filter_ matches].
    f_equal. apply list_filter_iff. intros a. apply bool_decide_eq_true. }
  split; [|split; [|split; [|split]]]; try apply Hlen.
  - clear Hlen. unfold filteredAlerts, setFilter. cbn [alerts filter_ matches].
    induction (alerts s) as [|a l IH]; [reflexivity|].
    rewrite filter_cons. destruct (decide (true = true)); [|done]. f_equal. exact IH.
  - intros sev a. unfold filteredAlerts, setFilter. cbn [alerts filter_ matches].
    rewrite list_elem_of_filter. intros [H _]. apply bool_decide_eq_true in H. exact H.
Qed.

Lemma fmap_map {A B} (f : A -> B) (l : list A) : f <$> l = map f l.
Proof. induction l as [|x l IH]; cbn; congruence. Qed.

Lemma flip_acknowledged_involutive a : flip_acknowledged (flip_acknowledged a) = a.
Proof. destruct a. unfold flip_acknowledged. cbn. rewrite negb_involutive. reflexivity. Qed.

(** Acknowledging is a toggle: a second click on the same alert restores
    the list.  A click changes nothing but the [acknowledged] flag of the
    alerts with that id: the ids, their order and the counters stay. *)
Theorem toggleAcknowledge_involutive i s :
  toggleAcknowledge i (toggleAcknowledge i s) = s /\
  id <$> alerts (toggleAcknowledge i s) = id <$> alerts s /\
  counts (toggleAcknowledge i s) = counts s /\
  forall a, a ∈ alerts s -> id a ≠ i -> a ∈ alerts (toggleAcknowledge i s).
Proof.
  destruct s as [l f n]. unfold toggleAcknowledge, with_alerts, counts. cbn.
  split; [|split; [|split]].
  - f_equal. rewrite map_map. rewrite <- (map_id l) at 2. apply map_ext. intros a.
    destruct (bool_decide (id a = i)) eqn:Hi; [|rewrite Hi; reflexivity].
    cbn [flip_acknowledged id]. rewrite Hi. apply flip_acknowledged_involutive.
  - rewrite !fmap_map, map_map. apply map_ext. intros a.
    destruct (bool_decide (id a = i)); reflexivity.
  - induction l as [|a l IH]; [reflexivity|].
    injection IH as IH1 IH2 IH3 IH4. cbn [map length].
    assert (Hsev : severity (if bool_decide (id a = i) then flip_acknowledged a else a)
                   = severity a) by (destruct (bool_decide (id a = i)); reflexivity).
    rewrite !filter_cons, Hsev.
    repeat case_decide; cbn [length]; congruence.
  - intros a Ha Hne. rewrite <- fmap_map. apply list_elem_of_fmap. exists a.
    split; [|exact Ha]. rewrite bool_decide_eq_false_2 by exact Hne. reflexivity.
Qed.

Lemma dismiss_absent i (l : list Alert) :
  i ∉ id <$> l -> filter (fun a => id a ≠ i) l = l.
Proof.
  induction l as [|a l IH]; [reflexivity|].
  rewrite fmap_cons, not_elem_of_cons. intros [Hne Hl].
  rewrite filter_cons_True by congruence. f_equal. auto.
Qed.

(** Dismissing removes every alert with that id and no other, keeping the
    order of the rest; where ids are distinct and the id is on the list,
    the list gets shorter by exactly one. *)
Theorem dismissAlert_removes i s :
  (forall a, a ∈ alerts (dismissAlert i s) <-> a ∈ alerts s /\ id a ≠ i) /\
  alerts (dismissAlert i s) `sublist_of` alerts s /\
  dismissAlert i (dismissAlert i s) = dismissAlert i s /\
  (NoDup (id <$> alerts s) -> i ∈ id <$> alerts s ->
   S (length (alerts (dismissAlert i s))) = length (alerts s)).
Proof.
  destruct s as [l f n]. unfold dismissAlert, with_alerts. cbn [alerts filter_ nextId].
  split; [|split; [|split]].
  - intros a. rewrite list_elem_of_filter. tauto.
  - apply sublist_filter.
  - f_equal. apply list_filter_filter_l. auto.
  - induction l as [|a l IH]; [intros _ H; inversion H|].
    rewrite fmap_cons. intros [Ha Hnd]%NoDup_cons [Hi|Hi]%elem_of_cons.
    + subst i. rewrite filter_cons_False by auto.
      rewrite (dismiss_absent _ _ Ha). reflexivity.
    + rewrite filter_cons_True by (intros Heq; apply Ha; rewrite Heq; exact Hi).
      cbn [length]. f_equal. auto.
Qed.

(** "Ack All" leaves every alert acknowledged and changes nothing else;
    pressing it again changes nothing. *)
Theorem acknowledgeAll_acknowledges s :
  (forall a, a ∈ alerts (acknowledgeAll s) -> acknowledged a = true) /\
  id <$> alerts (acknowledgeAll s) = id <$> alerts s /\
  counts (acknowledgeAll s) = counts s /\
  acknowledgeAll (acknowledgeAll s) = acknowledgeAll s.
Proof.
  destruct s as [l f n]. unfold acknowledgeAll, with_alerts, counts. cbn.
  split; [|split; [|split]].
  - rewrite <- fmap_map. intros a [b [-> _]]%list_elem_of_fmap. reflexivity.
  - rewrite !fmap_map, map_map. reflexivity.
  - induction l as [|a l IH]; [reflexivity|].
    injection IH as IH1 IH2 IH3 IH4. cbn [map length].
    rewrite !filter_cons. cbn [set_acknowledged severity].
    repeat case_decide; cbn [length]; congruence.
  - f_equal. rewrite map_map. reflexivity.
Qed.

(** The list is bounded: however long the tab stays open and whatever is
    clicked, at most 31 alerts are held (the newest, and up to 30 before
    it). *)
Theorem alerts_bounded clock events :
  (length (alerts (run clock events)) <= 31)%nat.
Proof.
  unfold run. induction events as [|e events IH] using rev_ind; [cbn; lia|].
  rewrite fold_left_app. cbn [fold_left].
  set (s := fold_left step events (mount clock)) in *.
  destruct e; cbn [step].
  - unfold tick. cbn [alerts length]. rewrite length_take. lia.
  - unfold toggleAcknowledge, with_alerts. cbn [alerts]. rewrite length_map. exact IH.
  - unfold dismissAlert, with_alerts. cbn [alerts].
    etransitivity; [apply length_filter | exact IH].
  - unfold acknowledgeAll, with_alerts. cbn [alerts]. rewrite length_map. exact IH.
  - exact IH.
Qed.

(** No step lowers [nextId]. *)
Lemma step_nextId_monotone s e : nextId s <= nextId (step s e).
Proof.
  destruct e; cbn; try lia. unfold increment. destruct (nextId s <? 2 ^ 53); lia.
Qed.

Lemma ids_fresh_step s e :
  nextId (step s e) < 2 ^ 53 -> ids_fresh s -> ids_fresh (step s e).
Proof.
  intros Hbound (Hnd & H5 & Hids). unfold ids_fresh. destruct e; cbn [step] in *.
  - unfold tick in *. cbn [alerts nextId new_alert] in *.
    assert (Hinc : increment (nextId s) = nextId s + 1).
    { unfold increment in *. destruct (nextId s <? 2 ^ 53) eqn:Hlt; [reflexivity|].
      apply Z.ltb_ge in Hlt. lia. }
    rewrite Hinc in *. rewrite fmap_cons. cbn [id].
    assert (Hsub : forall i, i ∈ id <$> take 30 (alerts s) -> i ∈ id <$> alerts s).
    { intros i. rewrite fmap_take. apply subseteq_take. }
    split; [|split].
    + constructor.
      * intros Hin. apply Hsub, Hids in Hin. cbn [id new_alert] in Hin. lia.
      * rewrite fmap_take. eapply sublist_NoDup; [exact Hnd | apply sublist_take].
    + lia.
    + intros i [->|Hi]%elem_of_cons; [cbn [id new_alert]; lia|].
      apply Hsub, Hids in Hi. lia.
  - unfold toggleAcknowledge, with_alerts. unfold ids_fresh. cbn [alerts nextId].
    assert (Hid : id <$> map (fun a => if bool_decide (AlertsTab.id a = id0)
                                       then flip_acknowledged a else a) (alerts s)
                  = id <$> alerts s).
    { rewrite !fmap_map, map_map. apply map_ext. intros a.
      destruct (bool_decide _); reflexivity. }
    rewrite Hid. auto.
  - unfold dismissAlert, with_alerts. unfold ids_fresh. cbn [alerts nextId].
    assert (Hsub : id <$> filter (fun a => AlertsTab.id a ≠ id0) (alerts s)
                   `sublist_of` id <$> alerts s).
    { apply fmap_sublist, sublist_filter. }
    split; [eapply sublist_NoDup; eauto|]. split; [exact H5|].
    intros i Hi. apply Hids. revert Hi. apply sublist_subseteq, Hsub.
  - unfold acknowledgeAll, with_alerts. unfold ids_fresh. cbn [alerts nextId].
    assert (Hid : id <$> map set_acknowledged (alerts s) = id <$> alerts s).
    { rewrite !fmap_map, map_map. reflexivity. }
    rewrite Hid. auto.
  - exact (conj Hnd (conj H5 Hids)).
Qed.

(** Alert ids, which serve as list keys, stay distinct: the five initial
    alerts are numbered 0 to 4 and each later alert takes the next value of
    [nextId], starting at 6 (5 is skipped).  This holds as long as
    [nextId] is below 2^53, the point where incrementing a Number stops
    changing it. *)
Theorem alert_ids_distinct clock events :
  let s := run clock events in
  nextId s < 2 ^ 53 ->
  NoDup (id <$> alerts s) /\
  forall a, a ∈ alerts s -> 0 <= id a <= nextId s /\ id a ≠ 5.
Proof.
  intros s Hbound.
  assert (H : ids_fresh s).
  { subst s. unfold run in *. induction events as [|e events IH] using rev_ind.
    - unfold ids_fresh. cbn [fold_left].
      change (id <$> alerts (mount clock)) with [0; 1; 2; 3; 4].
      change (nextId (mount clock)) with 5.
      split; [|split; [lia|]].
      + repeat (constructor; [set_solver|]). constructor.
      + intros i Hi. set_unfold. lia.
    - rewrite fold_left_app in *. cbn [fold_left] in *.
      apply ids_fresh_step; [exact Hbound|]. apply IH.
      eapply Z.le_lt_trans; [apply step_nextId_monotone | exact Hbound]. }
  destruct H as (Hnd & _ & Hids). split; [exact Hnd|].
  intros a Ha. apply Hids. apply list_elem_of_fmap. eauto.
Qed.

End AlertsProperties.

Section AlertsExamplesChecks.
Import AlertsTab AlertsExamples.

Lemma alert_ids_distinct_witness :
  let s := run example_clock example_events in
  NoDup (id <$> alerts s) /\
  forall a, a ∈ alerts s -> 0 <= id a <= nextId s /\ id a ≠ 5.
Proof.
  apply (alert_ids_distinct example_clock example_events).
  reflexivity.
Defined.

Example example_alert_ids :
  id <$> alerts (run example_clock example_events) = [7; 0; 1; 2; 3; 4].
Proof. reflexivity. Qed.

End AlertsExamplesChecks.

(** * The settings tab *)

Section SettingsProperties.
Import SettingsTab.

Lemma flip_involutive t : flip (flip t) = t.
Proof. destruct t. unfold flip. cbn. rewrite negb_involutive. reflexivity. Qed.

Lemma odd_clicks_cons id' c clicks :
  odd_clicks id' (c :: clicks) =
  if bool_decide (c = id') then negb (odd_clicks id' clicks) else odd_clicks id' clicks.
Proof.
  unfold odd_clicks. rewrite filter_cons.
  destruct (decide (c = id')) as [->|Hne].
  - rewrite bool_decide_eq_true_2 by reflexivity. cbn [length].
    rewrite Nat.odd_succ, <- Nat.negb_odd. reflexivity.
  - rewrite bool_decide_eq_false_2 by exact Hne. reflexivity.
Qed.

Lemma clicks_from toggles clicks :
  fold_left (fun toggles id' => toggle id' toggles) clicks toggles =
  map (fun t => if odd_clicks (id t) clicks then flip t else t) toggles.
Proof.
  revert toggles. induction clicks as [|c clicks IH]; intros toggles; cbn [fold_left].
  - rewrite <- (map_id toggles) at 1. apply map_ext. reflexivity.
  - rewrite IH. unfold toggle. rewrite map_map. apply map_ext. intros t.
    rewrite odd_clicks_cons.
    destruct (decide (id t = c)) as [<-|Hne].
    + rewrite !bool_decide_eq_true_2 by reflexivity. cbn [flip id].
      destruct (odd_clicks (id t) clicks); cbn [negb]; [apply flip_involutive | reflexivity].
    + rewrite bool_decide_eq_false_2 by exact Hne.
      rewrite (bool_decide_eq_false_2 (c = id t)) by congruence. reflexivity.
Qed.

(** After any series of clicks, the six settings are there in their
    order with their texts, and a setting is switched away from its initial
    value exactly when it was clicked an odd number of times; clicks on
    other settings, or on ids that name no setting, do not affect it. *)
Theorem settings_after_clicks clicks :
  after_clicks clicks =
  map (fun t => if odd_clicks (id t) clicks then flip t else t) initial_toggles.
Proof. apply clicks_from. Qed.

(** The switch is a toggle: a second click on the same setting restores
    the list, whatever list it is. *)
Theorem toggle_involutive id' toggles : toggle id' (toggle id' toggles) = toggles.
Proof.
  unfold toggle. rewrite map_map. rewrite <- (map_id toggles) at 2.
  apply map_ext. intros t.
  destruct (bool_decide (id t = id')) eqn:Hi; [|rewrite Hi; reflexivity].
  cbn [flip id]. rewrite Hi. apply flip_involutive.
Qed.

End SettingsProperties.

(** * Further properties of the live-scan poll *)

Section PollInvariant.
Import JsNumber Js Page PollVocabulary.

Context (StringToNumber : string -> number)
        (Date_parse : string -> option Z)
        (toLocaleTimeString : Z -> string).

Local Abbreviation step := (Page.step StringToNumber Date_parse toLocaleTimeString).
Local Abbreviation run := (Page.run StringToNumber Date_parse toLocaleTimeString).

Lemma lock_consistent_step s e : lock_consistent s -> lock_consistent (step s e).
Proof.
  intros (Hscan & Hheld & Hnd & Hids). destruct e as [options|id result now]; cbn [Page.step].
  - unfold fetchLiveData_invoke.
    destruct (requestLock s && negb (is_forced options)); [repeat split; assumption|].
    unfold lock_consistent. cbn [isScanning requestLock inFlight issued].
    rewrite fmap_app. cbn [fmap list_fmap call].
    split; [reflexivity|]. split; [intros _; destruct (inFlight s); discriminate|].
    split.
    + apply NoDup_app. split; [exact Hnd|]. split; [|apply NoDup_singleton].
      intros i Hi ->%list_elem_of_singleton. apply Hids in Hi. lia.
    + intros i [Hi| ->%list_elem_of_singleton]%elem_of_app; [apply Hids in Hi|]; lia.
  - unfold Page.fetchLiveData_settle.
    destruct (bool_decide (id ∈ call <$> inFlight s)); [|repeat split; assumption].
    unfold lock_consistent, fetchLiveData_finally.
    cbn [isScanning requestLock inFlight issued].
    assert (Hsame : inFlight (fetchLiveData_try_catch StringToNumber Date_parse
                                toLocaleTimeString result now s) = inFlight s
                    /\ issued (fetchLiveData_try_catch StringToNumber Date_parse
                                 toLocaleTimeString result now s) = issued s)
      by (destruct result; split; reflexivity).
    destruct Hsame as [-> ->].
    assert (Hsub : call <$> filter (fun i => call i ≠ id) (inFlight s)
                   `sublist_of` call <$> inFlight s)
      by apply fmap_sublist, sublist_filter.
    split; [reflexivity|]. split; [discriminate|]. split.
    + eapply sublist_NoDup; eauto.
    + intros i Hi. apply Hids. revert Hi. apply sublist_subseteq, Hsub.
Qed.

(** In every state the component reaches, the scanning indicator shows
    exactly whether the lock is held, and the lock is held only while some
    request is in flight.  So the poll cannot lock itself out: once the
    requests in flight have settled, the next timer tick gets through. *)
Theorem fetchLiveData_lock_never_stuck events :
  let s := run events initial in
  isScanning s = requestLock s /\
  (requestLock s = true -> inFlight s ≠ []) /\
  NoDup (call <$> inFlight s) /\
  (inFlight s = [] ->
   issued (fetchLiveData_invoke None s) = S (issued s)).
Proof.
  intros s.
  assert (H : lock_consistent s).
  { subst s. unfold Page.run. induction events as [|e events IH] using rev_ind.
    - cbn. repeat split; [discriminate | constructor | intros id Hid; inversion Hid].
    - rewrite fold_left_app. cbn [fold_left]. apply lock_consistent_step, IH. }
  destruct H as (Hscan & Hheld & Hnd & _).
  split; [exact Hscan|]. split; [exact Hheld|]. split; [exact Hnd|].
  intros Hempty. unfold fetchLiveData_invoke.
  destruct (requestLock s) eqn:Hl; [exfalso; apply Hheld; auto | reflexivity].
Qed.

End PollInvariant.

(** * Rounding never leaves the numbers *)

Section RoundingRange.
Import JsNumber.

Lemma shr_1_nonneg mrs : 0 <= shr_m mrs -> 0 <= shr_m (shr_1 mrs) <= shr_m mrs.
Proof.
  destruct mrs as [m r s]. cbn [shr_m]. unfold shr_1.
  destruct m as [|[p|p|]|[p|p|]]; cbn [shr_m]; lia.
Qed.

Lemma iter_pos_shr_1_nonneg p :
  forall mrs, 0 <= shr_m mrs -> 0 <= shr_m (SpecFloat.iter_pos shr_1 p mrs) <= shr_m mrs.
Proof.
  induction p as [p IH|p IH|]; intros mrs H; cbn [SpecFloat.iter_pos].
  - pose proof (shr_1_nonneg mrs H) as H1.
    pose proof (IH (shr_1 mrs) (proj1 H1)) as H2.
    pose proof (IH _ (proj1 H2)) as H3. lia.
  - pose proof (IH mrs H) as H2.
    pose proof (IH _ (proj1 H2)) as H3. lia.
  - apply shr_1_nonneg, H.
Qed.

Lemma shr_nonneg mrs e n :
  0 <= shr_m mrs -> 0 <= shr_m (fst (shr mrs e n)) <= shr_m mrs.
Proof.
  intros H. unfold shr. destruct n; cbn [fst]; try lia.
  apply iter_pos_shr_1_nonneg, H.
Qed.

Lemma shr_m_of_loc m l : shr_m (shr_record_of_loc m l) = m.
Proof. destruct l as [|[]]; reflexivity. Qed.

Lemma shr_fexp_nonneg m e l :
  0 <= m -> 0 <= shr_m (fst (shr_fexp prec emax m e l)) <= m.
Proof.
  intros H. unfold shr_fexp.
  pose proof (shr_nonneg (shr_record_of_loc m l) e
                (fexp prec emax (Zdigits2 m + e) - e)) as Hs.
  rewrite shr_m_of_loc in Hs. auto.
Qed.

Lemma round_nearest_even_bounds m l : 0 <= m -> m <= round_nearest_even m l <= m + 1.
Proof.
  intros H. unfold round_nearest_even. destruct l as [|[]]; try lia.
  destruct (Z.even m); lia.
Qed.

(** Rounding a non-negative mantissa never gives NaN. *)
Lemma binary_round_aux_not_nan sx mx ex lx :
  0 <= mx -> binary_round_aux prec emax sx mx ex lx <> S754_nan.
Proof.
  intros H. unfold binary_round_aux.
  pose proof (shr_fexp_nonneg mx ex lx H) as H1.
  destruct (shr_fexp prec emax mx ex lx) as [mrs' e'] eqn:E1. cbn [fst] in H1.
  pose proof (round_nearest_even_bounds (shr_m mrs') (loc_of_shr_record mrs') (proj1 H1)) as H2.
  pose proof (shr_fexp_nonneg (round_nearest_even (shr_m mrs') (loc_of_shr_record mrs')) e'
                loc_Exact) as H3.
  destruct (shr_fexp prec emax _ e' loc_Exact) as [mrs'' e''] eqn:E2. cbn [fst] in H3.
  destruct (shr_m mrs'') as [|p|p] eqn:E3; [discriminate| |lia].
  destruct (e'' <=? emax - prec); discriminate.
Qed.

Lemma SFdiv_nan x m e :
  SFdiv prec emax x (S754_finite false m e) = S754_nan <-> x = S754_nan.
Proof.
  split; [|intros ->; reflexivity].
  destruct x as [s|s| |s mx ex]; cbn [SFdiv]; try discriminate; [reflexivity|].
  destruct (SFdiv_core_binary prec emax (Z.pos mx) ex (Z.pos m) e) as [[mz ez] lz] eqn:E.
  intros Hn. exfalso. revert Hn. apply binary_round_aux_not_nan.
  unfold SFdiv_core_binary in E.
  set (s' := ex - e - _) in E.
  assert (Hm : 0 <= match s' with Z0 => Z.pos mx | Z.pos _ => Z.shiftl (Z.pos mx) s' | Z.neg _ => 0 end).
  { destruct s'; try lia. apply Z.shiftl_nonneg. lia. }
  set (a := match s' with Z0 => Z.pos mx | Z.pos _ => Z.shiftl (Z.pos mx) s' | Z.neg _ => 0 end) in *.
  pose proof (Z_div_mod a (Z.pos m) ltac:(lia)) as Hdm.
  destruct (Z.div_eucl a (Z.pos m)) as [q r].
  injection E as <- _ _. nia.
Qed.

Lemma SFmul_nan x m e :
  SFmul prec emax x (S754_finite false m e) = S754_nan <-> x = S754_nan.
Proof.
  split; [|intros ->; reflexivity].
  destruct x as [s|s| |s mx ex]; cbn [SFmul]; try discriminate; [reflexivity|].
  intros Hn. exfalso. revert Hn. apply binary_round_aux_not_nan. lia.
Qed.

Lemma of_Z_not_nan n : of_Z n <> S754_nan.
Proof.
  unfold of_Z, binary_normalize. destruct n as [|p|p]; [discriminate| |];
    unfold binary_round;
    destruct (shl_align _ _ _) as [mz ez]; apply binary_round_aux_not_nan; lia.
Qed.

Lemma Math_round_nan x : Math_round x = S754_nan <-> x = S754_nan.
Proof.
  split; [|intros ->; reflexivity].
  destruct x as [s|s| |s m e]; cbn [Math_round]; try discriminate; [reflexivity|].
  destruct (0 <=? e); [discriminate|]. cbv zeta.
  destruct (_ =? 0); [discriminate|]. intros H. exfalso. exact (of_Z_not_nan _ H).
Qed.

Lemma Zdigits2_bound a k : 0 <= k -> 0 <= a < 2 ^ k -> Zdigits2 a <= k.
Proof.
  intros Hk [Ha Hlt]. destruct a as [|p|p]; cbn [Zdigits2]; [lia| |lia].
  pose proof (digits2_pos_bounds p) as [Hp _].
  assert (H : 2 ^ Z.pos (digits2_pos p) < 2 ^ (k + 1)).
  { rewrite Z.pow_add_r by lia. lia. }
  apply Z.pow_lt_mono_r_iff in H; lia.
Qed.

Lemma shr_exponent mrs e n : snd (shr mrs e n) = if 0 <? n then e + n else e.
Proof. destruct n; reflexivity. Qed.

Lemma shr_fexp_exponent m e l k :
  0 <= k -> 0 <= m < 2 ^ k ->
  snd (shr_fexp prec emax m e l) <= Z.max (Z.max e (k + e - 53)) (-1074).
Proof.
  intros Hk Hm. unfold shr_fexp. rewrite shr_exponent.
  pose proof (Zdigits2_bound m k Hk Hm) as Hd.
  destruct (0 <? _) eqn:Hn; [|lia].
  unfold fexp, SpecFloat.emin, prec, emax in *. lia.
Qed.

(** Rounding a non-negative mantissa below 2^k at an exponent of 0 or
    less gives zero or a finite number, for [k] up to 400. *)
Lemma binary_round_aux_finite sx mx ex lx k :
  0 <= k <= 400 -> 0 <= mx < 2 ^ k -> ex <= 0 ->
  isFinite (binary_round_aux prec emax sx mx ex lx) = true.
Proof.
  intros Hk Hm Hex. unfold binary_round_aux.
  pose proof (shr_fexp_nonneg mx ex lx (proj1 Hm)) as H1.
  pose proof (shr_fexp_exponent mx ex lx k (proj1 Hk) Hm) as He1.
  destruct (shr_fexp prec emax mx ex lx) as [mrs' e'] eqn:E1. cbn [fst snd] in *.
  pose proof (round_nearest_even_bounds (shr_m mrs') (loc_of_shr_record mrs') (proj1 H1)) as H2.
  set (m1 := round_nearest_even (shr_m mrs') (loc_of_shr_record mrs')) in *.
  assert (Hm1 : 0 <= m1 < 2 ^ (k + 1)).
  { rewrite Z.pow_add_r by lia. lia. }
  pose proof (shr_fexp_nonneg m1 e' loc_Exact (proj1 Hm1)) as H3.
  pose proof (shr_fexp_exponent m1 e' loc_Exact (k + 1) ltac:(lia) Hm1) as He2.
  destruct (shr_fexp prec emax m1 e' loc_Exact) as [mrs'' e''] eqn:E2. cbn [fst snd] in *.
  destruct (shr_m mrs'') as [|p|p] eqn:E3; [reflexivity| |lia].
  replace (e'' <=? emax - prec) with true; [reflexivity|].
  symmetry. apply Z.leb_le. unfold emax, prec. lia.
Qed.

(** The Number value of a decimal with two fraction digits and fewer
    than 80 binary digits in all is finite. *)
Lemma decimal_finite negative n : (n < 2 ^ 80)%N -> isFinite (decimal negative n 2) = true.
Proof.
  intros Hn. unfold decimal. destruct n as [|p]; [reflexivity|].
  change (pow10 2) with 100%positive. cbn [SFdiv].
  destruct (SFdiv_core_binary prec emax (Z.pos p) 0 100 0) as [[mz ez] lz] eqn:E.
  unfold SFdiv_core_binary in E.
  assert (Hp : 0 < Z.pos p < 2 ^ 80) by lia.
  assert (Hd : 1 <= Zdigits2 (Z.pos p) <= 80).
  { split; [cbn; lia|]. apply Zdigits2_bound; lia. }
  change (Zdigits2 100) with 7 in E.
  set (e' := Z.min (fexp prec emax (Zdigits2 (Z.pos p) + 0 - (7 + 0))) (0 - 0)) in E.
  assert (He' : -59 <= e' <= 0).
  { unfold e', fexp, SpecFloat.emin, prec, emax. lia. }
  set (a := match 0 - 0 - e' with
            | Z0 => Z.pos p
            | Z.pos _ => Z.shiftl (Z.pos p) (0 - 0 - e')
            | Z.neg _ => 0
            end) in E.
  assert (Ha : 0 <= a < 2 ^ 139).
  { unfold a. destruct (0 - 0 - e') as [|s|s] eqn:Es.
    - split; [lia|]. eapply Z.lt_le_trans; [apply Hp|]. apply Z.pow_le_mono_r; lia.
    - rewrite Z.shiftl_mul_pow2 by lia. split; [lia|].
      assert (2 ^ Z.pos s <= 2 ^ 59) by (apply Z.pow_le_mono_r; lia).
      replace (2 ^ 139) with (2 ^ 80 * 2 ^ 59) by (rewrite <- Z.pow_add_r; lia).
      nia.
    - split; [lia|]. apply Z.pow_pos_nonneg; lia. }
  pose proof (Z_div_mod a 100 ltac:(lia)) as Hdm.
  destruct (Z.div_eucl a 100) as [q r].
  injection E as <- <- _.
  apply (binary_round_aux_finite _ _ _ _ 139); [lia | nia | lia].
Qed.

Lemma toFixed_finite x :
  isFinite x = true -> isFinite (Number_of_text (toFixed x 2)) = true.
Proof.
  destruct x as [s| | |s m e]; try discriminate; intros _; [reflexivity|].
  unfold toFixed. change (pow10 2) with 100%positive.
  assert (H23 : 10 ^ 23 < 2 ^ 80) by reflexivity.
  destruct (0 <=? e) eqn:He.
  - apply Z.leb_le in He.
    destruct (10 ^ 21 <=? Z.pos m * 2 ^ e) eqn:Hbig; [reflexivity|].
    apply Z.leb_gt in Hbig. cbn [Number_of_text]. apply decimal_finite.
    assert (0 < 2 ^ e) by (apply Z.pow_pos_nonneg; lia).
    apply N2Z.inj_lt. rewrite Z2N.id by nia.
    change (Z.of_N (2 ^ 80)) with (2 ^ 80). nia.
  - apply Z.leb_gt in He. cbv zeta.
    assert (Hd : 0 < 2 ^ (- e)) by (apply Z.pow_pos_nonneg; lia).
    destruct (10 ^ 21 * 2 ^ (- e) <=? Z.pos m) eqn:Hbig; [reflexivity|].
    apply Z.leb_gt in Hbig. cbn [Number_of_text]. apply decimal_finite.
    assert (Hq : 0 <= (2 * (Z.pos m * 100) + 2 ^ (- e)) / (2 * 2 ^ (- e)) < 10 ^ 23 + 1).
    { split; [apply Z.div_pos; lia|]. apply Z.div_lt_upper_bound; [lia|]. nia. }
    apply N2Z.inj_lt. rewrite Z2N.id by lia.
    change (Z.of_N (2 ^ 80)) with (2 ^ 80). lia.
Qed.

End RoundingRange.

Section DecisionRange.
Import JsNumber Js Api.

Context (StringToNumber : string -> number)
        (Date_parse : string -> option Z)
        (toLocaleTimeString : Z -> string).

(** [toSafeNumber] with a finite fallback never lets NaN or an infinity
    through, whatever value it is given. *)
Lemma toSafeNumber_finite value fallback :
  isFinite fallback = true ->
  isFinite (toSafeNumber StringToNumber value fallback) = true.
Proof.
  intros Hf. unfold toSafeNumber.
  destruct (isFinite (Number StringToNumber value)) eqn:Hp; assumption.
Qed.

(** Whatever the payload holds, absent fields, NaN, infinities and
    magnitudes beyond the fixed-point range included, the [costSaved] and
    [stabilityScore] that reach the interface are finite numbers. *)
Theorem mapDecisionForUi_amounts_finite response now :
  let ui := mapDecisionForUi StringToNumber Date_parse toLocaleTimeString response now in
  isFinite (UiDecision.costSaved ui) = true /\
  isFinite (UiDecision.stabilityScore ui) = true.
Proof.
  cbn [mapDecisionForUi UiDecision.costSaved UiDecision.stabilityScore].
  split; apply toFixed_finite, toSafeNumber_finite; reflexivity.
Qed.

End DecisionRange.

(** * [toDecisionPayload] *)

Section DecisionPayloadProperties.
Import JsNumber Js DecisionRequest.

Context (Object_prototype_has : string -> bool) (getDay getHours : Z -> Z).

Local Abbreviation toDecisionPayload :=
  (DecisionRequest.toDecisionPayload Object_prototype_has getDay getHours).

Lemma Math_max_one y :
  (Math_max (of_Z 1) y = S754_nan <-> y = S754_nan) /\
  (y <> S754_nan -> SFleb (of_Z 1) (Math_max (of_Z 1) y) = true).
Proof.
  change (of_Z 1) with (S754_finite false 4503599627370496 (-52)).
  unfold Math_max, SFleb.
  destruct (SFcompare (S754_finite false 4503599627370496 (-52)) y) as [[]|] eqn:Hc.
  - replace (SFcompare _ (S754_finite false 4503599627370496 (-52))) with (Some Eq)
      by (symmetry; apply SFcompare_positive_Eq; auto).
    split; [split; [discriminate | intros ->; discriminate] | reflexivity].
  - rewrite Hc. split; [|reflexivity].
    split; [intros ->; discriminate | intros ->; discriminate].
  - replace (SFcompare _ (S754_finite false 4503599627370496 (-52))) with (Some Eq)
      by (symmetry; apply SFcompare_positive_Eq; auto).
    split; [split; [discriminate | intros ->; discriminate] | reflexivity].
  - split; [split; [|reflexivity] | intros Hy; exfalso; apply Hy].
    + intros _. destruct y as [[]|[]| |[]]; try discriminate; reflexivity.
    + destruct y as [[]|[]| |[]]; try discriminate; reflexivity.
Qed.

(** The occupancy sent to the backend is at least 1 whatever the grid
    load is (zero, negative and infinite loads included); the one
    exception is a grid load of NaN, for which it is NaN. *)
Theorem toDecisionPayload_occupancy payload now :
  let sent := occupancy (toDecisionPayload payload now) in
  (gridLoad payload = NaN -> sent = NaN) /\
  (gridLoad payload <> NaN -> sent <> NaN /\ SFleb (of_Z 1) sent = true).
Proof.
  cbn [DecisionRequest.toDecisionPayload occupancy].
  set (scaled := SFmul prec emax (SFdiv prec emax (gridLoad payload) (of_Z 100)) (of_Z 1000)).
  assert (Hnan : Math_round scaled = S754_nan <-> gridLoad payload = S754_nan).
  { rewrite Math_round_nan. unfold scaled.
    change (of_Z 1000) with (S754_finite false 8796093022208000 (-43)).
    change (of_Z 100) with (S754_finite false 7036874417766400 (-46)).
    rewrite SFmul_nan, SFdiv_nan. reflexivity. }
  destruct (Math_max_one (Math_round scaled)) as [Hmax Hle].
  split.
  - intros Hg. apply Hmax, Hnan, Hg.
  - intros Hg. assert (Hr : Math_round scaled <> S754_nan) by (rewrite Hnan; exact Hg).
    split; [rewrite Hmax; exact Hr | apply Hle, Hr].
Qed.

(** A location that is none of the six listed cities is sent with
    building id 0, provided its name is not that of a member every object
    inherits (such as "toString"), in which case that member is what the
    lookup yields. *)
Theorem toDecisionPayload_unknown_location payload now :
  location payload ∉ ["Mumbai"; "Delhi"; "Bangalore"; "Chennai"; "Kolkata"; "Hyderabad"] ->
  building_id (toDecisionPayload payload now) =
  if Object_prototype_has (location payload)
  then Inherited (location payload) else OwnNumber zero.
Proof.
  intros Hloc. cbn [DecisionRequest.toDecisionPayload building_id].
  unfold building_id_of, locationToBuildingId.
  rewrite (not_elem_of_list_to_map_1 _ (location payload)); [reflexivity|].
  exact Hloc.
Qed.

End DecisionPayloadProperties.

Section DecisionPayloadExamples.
Import JsNumber DecisionRequest DecisionRequestExamples.

Lemma toDecisionPayload_unknown_location_witness :
  building_id (toDecisionPayload example_Object_prototype_has example_getDay example_getHours
                 pune_input 0) = OwnNumber zero.
Proof.
  apply (toDecisionPayload_unknown_location example_Object_prototype_has example_getDay
           example_getHours pune_input 0).
  vm_compute. intros H. repeat (apply elem_of_cons in H as [H|H]; [discriminate H|]).
  inversion H.
Defined.

End DecisionPayloadExamples.

(** * The runtime controls *)

Section ControlInvariant.
Import JsNumber Js Page Controls.

Context (StringToNumber : string -> number)
        (Date_parse : string -> option Z)
        (toLocaleTimeString : Z -> string).

Local Abbreviation step := (Controls.step StringToNumber Date_parse toLocaleTimeString).
Local Abbreviation run := (Controls.run StringToNumber Date_parse toLocaleTimeString).
Local Abbreviation fetch_settle :=
  (Controls.fetch_settle StringToNumber Date_parse toLocaleTimeString).

(** A forced invocation always gets through and is then in flight. *)
Lemma forced_in_flight p :
  inFlight (fetchLiveData_invoke forced p) =
  inFlight p ++ [{| Page.call := issued p; Page.forced := true |}].
Proof.
  unfold fetchLiveData_invoke, forced. cbn. rewrite andb_false_r. reflexivity.
Qed.

Lemma invoke_keeps_in_flight options p id :
  id ∈ Page.call <$> inFlight p -> id ∈ Page.call <$> inFlight (fetchLiveData_invoke options p).
Proof.
  unfold fetchLiveData_invoke. destruct (_ && _); [auto|]. cbn [inFlight].
  rewrite fmap_app. intros. apply elem_of_app. auto.
Qed.

Lemma settle_keeps_in_flight id' result now p id :
  id ≠ id' -> id ∈ Page.call <$> inFlight p ->
  id ∈ Page.call <$> inFlight (fetchLiveData_settle StringToNumber Date_parse
                                  toLocaleTimeString id' result now p).
Proof.
  intros Hne Hin. unfold fetchLiveData_settle. destruct (bool_decide _); [|exact Hin].
  unfold fetchLiveData_finally. cbn [inFlight].
  assert (Hsame : inFlight (fetchLiveData_try_catch StringToNumber Date_parse
                              toLocaleTimeString result now p) = inFlight p)
    by (destruct result; reflexivity).
  rewrite Hsame. apply list_elem_of_fmap in Hin as (i & -> & Hi).
  apply list_elem_of_fmap. exists i. split; [reflexivity|].
  apply list_elem_of_filter. auto.
Qed.

Lemma short_list_cases {A} (l : list A) : (length l <= 1)%nat -> l = [] \/ exists a, l = [a].
Proof. destruct l as [|a [|b l]]; cbn; intros; [auto | eauto | lia]. Qed.

Lemma mode_control_step s e : mode_control_consistent s -> mode_control_consistent (step s e).
Proof.
  intros (Hlen & Hflag & Hwait). unfold mode_control_consistent.
  destruct e as [|id result now|nextMode|request result|nextScenario|request result];
    cbn [Controls.step].
  - (* timer *)
    unfold timer_tick. cbn. repeat split; try tauto; try apply Hflag.
    intros a Ha. specialize (Hwait a Ha). destruct (mode_awaiting a); [exact Hwait|].
    apply invoke_keeps_in_flight, Hwait.
  - (* a fetch settles *)
    unfold Controls.fetch_settle.
    destruct (bool_decide (id ∈ Page.call <$> inFlight (page s))) eqn:Hid;
      [|repeat split; try tauto; apply Hflag].
    cbn [modeActions isModeUpdating page modeRequests].
    destruct (short_list_cases _ Hlen) as [Hnil|[a Ha]].
    + rewrite Hnil in *. cbn [filter list_filter length].
      rewrite bool_decide_eq_false_2 by (intros H; inversion H).
      split; [lia|]. split; [exact Hflag|]. intros a Ha. inversion Ha.
    + rewrite Ha in *. specialize (Hwait a ltac:(left)).
      destruct (decide (mode_awaiting a = AwaitingRefetch id)) as [Heq|Hne].
      * rewrite bool_decide_eq_true_2 by (constructor; exact Heq).
        rewrite filter_cons_False by auto. cbn.
        repeat split; try lia; try discriminate; try tauto.
        intros b Hb. inversion Hb.
      * rewrite bool_decide_eq_false_2
          by (intros [H|H]%Exists_cons; [contradiction | inversion H]).
        rewrite filter_cons_True by exact Hne. cbn [filter list_filter length].
        split; [cbn; lia|]. split; [exact Hflag|].
        intros b ->%list_elem_of_singleton.
        destruct (mode_awaiting a) as [r|id'] eqn:Hw; [exact Hwait|].
        apply settle_keeps_in_flight; [congruence | exact Hwait].
  - (* a mode button is clicked *)
    unfold updateRuntimeMode_invoke. destruct (isModeUpdating s) eqn:Hf;
      [repeat split; try tauto; rewrite <- Hf; apply Hflag|].
    assert (Hnil : modeActions s = []).
    { destruct (modeActions s) eqn:E; [reflexivity|]. exfalso.
      assert (false = true) by (apply Hflag; discriminate). discriminate. }
    cbn [modeActions isModeUpdating page modeRequests]. rewrite Hnil. cbn [app length].
    split; [lia|]. split; [split; [discriminate | reflexivity]|].
    intros a ->%list_elem_of_singleton. cbn. rewrite length_app. cbn. lia.
  - (* the mode request settles *)
    unfold updateRuntimeMode_settle.
    destruct (list_find _ (modeActions s)) as [[i action]|] eqn:Hfind;
      [|repeat split; try tauto; apply Hflag].
    apply list_find_Some in Hfind as (Hi & Haw & _).
    destruct (short_list_cases _ Hlen) as [Hnil|[a Ha]]; [rewrite Hnil in Hi; discriminate|].
    rewrite Ha in Hi. destruct i; [|discriminate]. injection Hi as ->.
    unfold updateRuntimeMode_resume. rewrite Ha.
    rewrite filter_cons_False by auto. cbn [filter list_filter app].
    destruct result as [response|error];
      cbn [modeActions isModeUpdating page modeRequests length].
    + split; [lia|]. split; [rewrite Ha in Hflag; split; [discriminate | intros _; apply Hflag; discriminate]|].
      intros b ->%list_elem_of_singleton. cbn [mode_awaiting].
      rewrite forced_in_flight, fmap_app. apply elem_of_app. right. left.
    + split; [lia|]. split; [split; [discriminate | intros H; contradiction]|].
      intros b Hb. inversion Hb.
  - (* a scenario button is clicked *)
    unfold triggerScenario_invoke. destruct (isScenarioUpdating s);
      [repeat split; try tauto; apply Hflag|].
    cbn. repeat split; try tauto; try apply Hflag.
  - (* the scenario request settles *)
    unfold triggerScenario_settle.
    destruct (list_find _ (scenarioActions s)) as [[i action]|];
      [|repeat split; try tauto; apply Hflag].
    unfold triggerScenario_resume.
    destruct result as [response|error];
      cbn [modeActions isModeUpdating page modeRequests].
    + split; [exact Hlen|]. split; [exact Hflag|].
      intros a Ha. specialize (Hwait a Ha). destruct (mode_awaiting a); [exact Hwait|].
      apply invoke_keeps_in_flight. exact Hwait.
    + split; [exact Hlen|]. split; [exact Hflag|]. exact Hwait.
Qed.

Lemma scenario_control_step s e : scenario_control_consistent s -> scenario_control_consistent (step s e).
Proof.
  intros (Hlen & Hflag & Hwait). unfold scenario_control_consistent.
  destruct e as [|id result now|nextMode|request result|nextScenario|request result];
    cbn [Controls.step].
  - (* timer *)
    unfold timer_tick. cbn. repeat split; try tauto; try apply Hflag.
    intros a Ha. specialize (Hwait a Ha). destruct (scenario_awaiting a); [exact Hwait|].
    apply invoke_keeps_in_flight, Hwait.
  - (* a fetch settles *)
    unfold Controls.fetch_settle.
    destruct (bool_decide (id ∈ Page.call <$> inFlight (page s))) eqn:Hid;
      [|repeat split; try tauto; apply Hflag].
    cbn [scenarioActions isScenarioUpdating page scenarioRequests].
    destruct (short_list_cases _ Hlen) as [Hnil|[a Ha]].
    + rewrite Hnil in *. cbn [filter list_filter length].
      rewrite bool_decide_eq_false_2 by (intros H; inversion H).
      split; [lia|]. split; [exact Hflag|]. intros a Ha. inversion Ha.
    + rewrite Ha in *. specialize (Hwait a ltac:(left)).
      destruct (decide (scenario_awaiting a = AwaitingRefetch id)) as [Heq|Hne].
      * rewrite bool_decide_eq_true_2 by (constructor; exact Heq).
        rewrite filter_cons_False by auto. cbn.
        repeat split; try lia; try discriminate; try tauto.
        intros b Hb. inversion Hb.
      * rewrite bool_decide_eq_false_2
          by (intros [H|H]%Exists_cons; [contradiction | inversion H]).
        rewrite filter_cons_True by exact Hne. cbn [filter list_filter length].
        split; [cbn; lia|]. split; [exact Hflag|].
        intros b ->%list_elem_of_singleton.
        destruct (scenario_awaiting a) as [r|id'] eqn:Hw; [exact Hwait|].
        apply settle_keeps_in_flight; [congruence | exact Hwait].
  - (* a mode button is clicked *)
    unfold updateRuntimeMode_invoke. destruct (isModeUpdating s);
      [repeat split; try tauto; apply Hflag|].
    cbn. repeat split; try tauto; try apply Hflag.
  - (* the mode request settles *)
    unfold updateRuntimeMode_settle.
    destruct (list_find _ (modeActions s)) as [[i action]|];
      [|repeat split; try tauto; apply Hflag].
    unfold updateRuntimeMode_resume.
    destruct result as [response|error];
      cbn [scenarioActions isScenarioUpdating page scenarioRequests].
    + split; [exact Hlen|]. split; [exact Hflag|].
      intros a Ha. specialize (Hwait a Ha). destruct (scenario_awaiting a); [exact Hwait|].
      apply invoke_keeps_in_flight. exact Hwait.
    + split; [exact Hlen|]. split; [exact Hflag|]. exact Hwait.
  - (* a scenario button is clicked *)
    unfold triggerScenario_invoke. destruct (isScenarioUpdating s) eqn:Hf;
      [repeat split; try tauto; rewrite <- Hf; apply Hflag|].
    assert (Hnil : scenarioActions s = []).
    { destruct (scenarioActions s) eqn:E; [reflexivity|]. exfalso.
      assert (false = true) by (apply Hflag; discriminate). discriminate. }
    cbn [scenarioActions isScenarioUpdating page scenarioRequests]. rewrite Hnil. cbn [app length].
    split; [lia|]. split; [split; [discriminate | reflexivity]|].
    intros a ->%list_elem_of_singleton. cbn. rewrite length_app. cbn. lia.
  - (* the scenario request settles *)
    unfold triggerScenario_settle.
    destruct (list_find _ (scenarioActions s)) as [[i action]|] eqn:Hfind;
      [|repeat split; try tauto; apply Hflag].
    apply list_find_Some in Hfind as (Hi & Haw & _).
    destruct (short_list_cases _ Hlen) as [Hnil|[a Ha]]; [rewrite Hnil in Hi; discriminate|].
    rewrite Ha in Hi. destruct i; [|discriminate]. injection Hi as ->.
    unfold triggerScenario_resume. rewrite Ha.
    rewrite filter_cons_False by auto. cbn [filter list_filter app].
    destruct result as [response|error];
      cbn [scenarioActions isScenarioUpdating page scenarioRequests length].
    + split; [lia|]. split; [rewrite Ha in Hflag; split; [discriminate | intros _; apply Hflag; discriminate]|].
      intros b ->%list_elem_of_singleton. cbn [scenario_awaiting].
      rewrite forced_in_flight, fmap_app. apply elem_of_app. right. left.
    + split; [lia|]. split; [split; [discriminate | intros H; contradiction]|].
      intros b Hb. inversion Hb.
Qed.

(** However clicks, timer ticks and responses interleave, at most one
    mode change and at most one scenario injection are in progress at a
    time; the "updating" flag of each control is set exactly while its
    callback is suspended, and a suspended callback always waits for
    something outstanding: the control request made last, or a forced
    [fetchLiveData] that is still in flight. *)
Theorem controls_one_at_a_time events :
  mode_control_consistent (run events) /\
  scenario_control_consistent (run events).
Proof.
  unfold Controls.run. induction events as [|e events IH] using rev_ind.
  - split; (split; [cbn; lia|]; split; [cbn; split; [discriminate | intros H; contradiction]|]);
      intros a Ha; inversion Ha.
  - rewrite fold_left_app. cbn [fold_left]. destruct IH as [Hm Hs].
    split; [apply mode_control_step, Hm | apply scenario_control_step, Hs].
Qed.

(** How a mode change ends, for the invocation suspended on request [r]
    with target [m].  If the request fails, the error is shown, the status
    line is cleared, the flag is released and no refetch is made; the mode
    shown is not reverted.  If it succeeds, the mode the backend reports
    (else [m]) is shown, and a [fetchLiveData] is issued even when the lock
    is held; the flag stays set until that fetch settles, and is released
    then whatever its result. *)
Theorem updateRuntimeMode_outcome s m r :
  modeActions s = [{| nextMode := m; mode_awaiting := AwaitingRequest r |}] ->
  (forall error,
     let s' := updateRuntimeMode_settle r (Rejected error) s in
     isModeUpdating s' = false /\ modeActions s' = [] /\
     decisionError (page s') = Some (message_or "Failed to change mode" error) /\
     controlStatus s' = None /\
     runtimeMode (page s') = runtimeMode (page s) /\
     issued (page s') = issued (page s)) /\
  (forall response,
     let s' := updateRuntimeMode_settle r (Fulfilled response) s in
     let id := issued (page s) in
     runtimeMode (page s') = default m (mode response) /\
     issued (page s') = S id /\ requestLock (page s') = true /\
     isModeUpdating s' = isModeUpdating s /\
     modeActions s' = [{| nextMode := m; mode_awaiting := AwaitingRefetch id |}] /\
     forall result now,
       let s'' := fetch_settle id result now s' in
       isModeUpdating s'' = false /\ modeActions s'' = [] /\
       requestLock (page s'') = false).
Proof.
  intros Ha. unfold updateRuntimeMode_settle. rewrite Ha.
  cbn [list_find]. rewrite decide_True by reflexivity. cbn [fmap option_fmap option_map].
  unfold updateRuntimeMode_resume. rewrite Ha. cbn [mode_awaiting nextMode].
  rewrite filter_cons_False by auto. cbn [filter list_filter app].
  split.
  - intros error. cbn. repeat split.
  - intros response.
    cbn [page isModeUpdating modeActions].
    unfold fetchLiveData_invoke at 1 2 3, forced. cbn [is_forced force default from_option id].
    rewrite andb_false_r. cbn [runtimeMode issued requestLock set_runtimeMode].
    repeat split.
    all: unfold Controls.fetch_settle; cbn [page modeActions isModeUpdating].
    all: rewrite forced_in_flight; cbn [issued set_runtimeMode].
    all: rewrite bool_decide_eq_true_2
      by (rewrite fmap_app; apply elem_of_app; right; left).
    all: cbn [isModeUpdating modeActions page].
    + rewrite bool_decide_eq_true_2 by (constructor; reflexivity). reflexivity.
    + rewrite filter_cons_False by auto. reflexivity.
    + unfold fetchLiveData_settle.
      rewrite bool_decide_eq_true_2
        by (rewrite forced_in_flight, fmap_app; apply elem_of_app; right; left).
      reflexivity.
Qed.

(** How a scenario injection ends: as for a mode change, with the
    scenario in place of the mode. *)
Theorem triggerScenario_outcome s sc r :
  scenarioActions s = [{| nextScenario := sc; scenario_awaiting := AwaitingRequest r |}] ->
  (forall error,
     let s' := triggerScenario_settle r (Rejected error) s in
     isScenarioUpdating s' = false /\ scenarioActions s' = [] /\
     decisionError (page s') = Some (message_or "Failed to set scenario" error) /\
     controlStatus s' = None /\
     scenarioState (page s') = scenarioState (page s) /\
     issued (page s') = issued (page s)) /\
  (forall response,
     let s' := triggerScenario_settle r (Fulfilled response) s in
     let id := issued (page s) in
     scenarioState (page s') = default sc (scenario response) /\
     issued (page s') = S id /\ requestLock (page s') = true /\
     isScenarioUpdating s' = isScenarioUpdating s /\
     scenarioActions s' = [{| nextScenario := sc; scenario_awaiting := AwaitingRefetch id |}] /\
     forall result now,
       let s'' := fetch_settle id result now s' in
       isScenarioUpdating s'' = false /\ scenarioActions s'' = [] /\
       requestLock (page s'') = false).
Proof.
  intros Ha. unfold triggerScenario_settle. rewrite Ha.
  cbn [list_find]. rewrite decide_True by reflexivity. cbn [fmap option_fmap option_map].
  unfold triggerScenario_resume. rewrite Ha. cbn [scenario_awaiting nextScenario].
  rewrite filter_cons_False by auto. cbn [filter list_filter app].
  split.
  - intros error. cbn. repeat split.
  - intros response.
    cbn [page isScenarioUpdating scenarioActions].
    unfold fetchLiveData_invoke at 1 2 3, forced. cbn [is_forced force default from_option id].
    rewrite andb_false_r. cbn [scenarioState issued requestLock set_scenarioState].
    repeat split.
    all: unfold Controls.fetch_settle; cbn [page scenarioActions isScenarioUpdating].
    all: rewrite forced_in_flight; cbn [issued set_scenarioState].
    all: rewrite bool_decide_eq_true_2
      by (rewrite fmap_app; apply elem_of_app; right; left).
    all: cbn [isScenarioUpdating scenarioActions page].
    + rewrite bool_decide_eq_true_2 by (constructor; reflexivity). reflexivity.
    + rewrite filter_cons_False by auto. reflexivity.
    + unfold fetchLiveData_settle.
      rewrite bool_decide_eq_true_2
        by (rewrite forced_in_flight, fmap_app; apply elem_of_app; right; left).
      reflexivity.
Qed.

End ControlInvariant.

Section ControlExamples.
Import JsNumber Js Page Controls ControlsExamples Examples.

Lemma updateRuntimeMode_outcome_witness :
  let s' := updateRuntimeMode_settle 0 (Rejected ThrownOther) hybrid_requested in
  isModeUpdating s' = false /\ modeActions s' = [] /\
  decisionError (page s') = Some "Failed to change mode"%string /\
  controlStatus s' = None /\
  runtimeMode (page s') = HYBRID /\
  issued (page s') = 0%nat.
Proof.
  destruct (updateRuntimeMode_outcome example_StringToNumber example_Date_parse
              example_toLocaleTimeString hybrid_requested HYBRID 0) as [Hfail _].
  - reflexivity.
  - exact (Hfail ThrownOther).
Defined.

Lemma triggerScenario_outcome_witness :
  let s' := triggerScenario_settle 0 (Rejected ThrownOther) grid_failure_requested in
  isScenarioUpdating s' = false /\ scenarioActions s' = [] /\
  decisionError (page s') = Some "Failed to set scenario"%string /\
  controlStatus s' = None /\
  scenarioState (page s') = grid_failure /\
  issued (page s') = 0%nat.
Proof.
  destruct (triggerScenario_outcome example_StringToNumber example_Date_parse
              example_toLocaleTimeString grid_failure_requested grid_failure 0) as [Hfail _].
  - reflexivity.
  - exact (Hfail ThrownOther).
Defined.

(** The status line while a change is applied shows the name with its
    first underscore turned into a space. *)
Example applying_status :
  controlStatus (updateRuntimeMode_invoke LIVE_EDGE initial) =
    Some "Applying mode LIVE EDGE..."%string /\
  scenarioRequests grid_failure_requested = [(grid_failure, of_Z 12)] /\
  scenarioRequests (triggerScenario_invoke normal initial) = [(normal, of_Z 0)].
Proof. repeat split. Qed.

End ControlExamples.

(** * The telemetry panel *)

Section TelemetryPanelProperties.
Import JsNumber Js ApiEndpoints TelemetryPanel.

Context (Number_toString : number -> string).

Local Abbreviation readings := (TelemetryPanel.readings Number_toString).

Lemma Math_min_upper m0 e0 y :
  (Math_min (S754_finite false m0 e0) y = S754_nan <-> y = S754_nan) /\
  (y <> S754_nan ->
   SFleb (Math_min (S754_finite false m0 e0) y) (S754_finite false m0 e0) = true).
Proof.
  assert (Hrefl : SFcompare (S754_finite false m0 e0) (S754_finite false m0 e0) = Some Eq)
    by (apply SFcompare_positive_Eq; auto).
  unfold Math_min, SFleb.
  destruct y as [[]|[]| |[] m e].
  1-4, 6: cbn [SFcompare]; rewrite ?Z.compare_refl, ?Pos.compare_cont_refl;
    split; [split; [discriminate | intros H; discriminate H] | intros _; reflexivity].
  - split; [split; reflexivity | intros H; exfalso; apply H; reflexivity].
  - destruct (SFcompare (S754_finite false m0 e0) (S754_finite false m e))
      as [[]|] eqn:Hc; cbv iota.
    + rewrite Hrefl.
      split; [split; [discriminate | intros H; discriminate H] | intros _; reflexivity].
    + rewrite Hrefl.
      split; [split; [discriminate | intros H; discriminate H] | intros _; reflexivity].
    + apply SFcompare_positive_Gt in Hc.
      replace (SFcompare (S754_finite false m e) (S754_finite false m0 e0))
        with (Some Lt) by (symmetry; apply SFcompare_positive_Lt; lia).
      split; [split; [discriminate | intros H; discriminate H] | intros _; reflexivity].
    + rewrite SFcompare_positive in Hc. discriminate.
Qed.

Lemma Math_min_hundred y :
  (Math_min (of_Z 100) y = S754_nan <-> y = S754_nan) /\
  (y <> S754_nan -> SFleb (Math_min (of_Z 100) y) (of_Z 100) = true).
Proof. apply Math_min_upper. Qed.

Lemma slider_range x m e :
  let slider :=
    Math_min (of_Z 100)
      (Math_round (SFmul prec emax (SFdiv prec emax x (S754_finite false m e)) (of_Z 100))) in
  (slider = NaN <-> x = NaN) /\ (x <> NaN -> SFleb slider (of_Z 100) = true).
Proof.
  intros slider. subst slider.
  set (y := Math_round _).
  assert (Hy : y = S754_nan <-> x = S754_nan).
  { unfold y. rewrite Math_round_nan.
    change (of_Z 100) with (S754_finite false 7036874417766400 (-46)).
    rewrite SFmul_nan, SFdiv_nan. reflexivity. }
  destruct (Math_min_hundred y) as [Hnan Hle].
  split; [rewrite Hnan; exact Hy|]. intros Hx. apply Hle. rewrite Hy. exact Hx.
Qed.

(** The energy and thermal sliders never go past 100, however large the
    reading; a slider position is NaN only if the reading is (which it is
    only for a NaN metric).  Without telemetry, or without its industrial
    metrics, the readings and slider positions are 0 and the badges show
    their placeholders. *)
Theorem TelemetryPanel_sliders_bounded telemetry :
  let r := readings telemetry in
  ((energySlider r = NaN <-> energyUsage r = NaN) /\
   (energyUsage r <> NaN -> SFleb (energySlider r) (of_Z 100) = true)) /\
  ((thermalSlider r = NaN <-> thermalIndex r = NaN) /\
   (thermalIndex r <> NaN -> SFleb (thermalSlider r) (of_Z 100) = true)) /\
  (forall metrics, telemetry ≫= industrial_metrics = Some metrics ->
     (energyUsage r = NaN <-> energy_usage_kwh metrics = NaN) /\
     (thermalIndex r = NaN <-> thermal_index_c metrics = NaN)) /\
  (telemetry ≫= industrial_metrics = None ->
     energyUsage r = zero /\ energySlider r = zero /\
     thermalIndex r = zero /\ thermalSlider r = zero /\ gridLoad r = zero /\
     gridStatus r = "unknown"%string /\ siteId r = "plant-local"%string).
Proof.
  cbn zeta. cbn [TelemetryPanel.readings energyUsage energySlider thermalIndex thermalSlider
                 gridLoad gridStatus siteId].
  split; [|split; [|split]].
  - change (of_Z 1000) with (S754_finite false 8796093022208000 (-43)).
    apply slider_range.
  - change (of_Z 90) with (S754_finite false 6333186975989760 (-46)).
    apply slider_range.
  - intros metrics ->. cbn [fmap option_fmap option_map default from_option id].
    split; apply Math_round_nan.
  - intros ->. repeat split.
Qed.

End TelemetryPanelProperties.

(** * The fast path of [apiRequest] *)

Section FastPath.
Import Js Api ApiVocabulary Examples.

(** When the active base URL answers with a successful status, that one
    request is the only one made and the base stays active.  The call then
    settles as [json()] does: a body that fails to decode rejects the call,
    and no other candidate is tried for it. *)
Theorem apiRequest_active_success env T
        (fetch : string -> RequestInit -> Settled (Response T)) path init active response :
  fetch (active +:+ path) (with_content_type init) = Fulfilled response ->
  ok response = true ->
  let r := apiRequest env T fetch path init active in
  outcome r = json response /\ attempted r = [active] /\ activeApiBaseUrl r = active.
Proof.
  intros Hf Hok r. subst r. unfold apiRequest, candidateBases. cbn [sweep].
  destruct (decide (active ∈ (∅ : gset string))) as [Hin|_]; [set_solver|].
  assert (Hr : try_block T fetch path (with_content_type init) active = Return response)
    by (apply try_block_Return; auto).
  rewrite Hr. repeat split.
Qed.

Lemma apiRequest_active_success_witness :
  let r := apiRequest None nat net_500_then_200 "/autonomous-ai/status" None
             "http://localhost:8010" in
  outcome r = Fulfilled 7%nat /\ attempted r = ["http://localhost:8010"] /\
  activeApiBaseUrl r = "http://localhost:8010".
Proof.
  apply (apiRequest_active_success None nat net_500_then_200 "/autonomous-ai/status" None
           "http://localhost:8010"
           {| status := 200; text := Fulfilled "7"; json := Fulfilled 7%nat |}).
  - reflexivity.
  - reflexivity.
Defined.

End FastPath.
